(** * Home_12: a command-line address book (home12.py)

    A shallow embedding of the program's data model ([Field] and its
    subtypes, [Record_], [AddressBook]), of its command handlers and of
    its read-eval-print loop, followed by the properties of the
    specification that were checked against it.

    Conventions of the embedding.

    - Text is a Rocq [string]; a character is the code point it carries
      (U+0000 .. U+00FF), and the character classes of [str.isdigit],
      [str.lower], [str.split] and [int] are the ones Python has on that
      range.
    - A Python exception is a value of [exn]; code that may raise returns
      a [result].  Code that mutates an object and may raise returns the
      outcome together with the state it leaves behind.
    - [date.today()], the lines typed at the prompt and the files on disk
      are inputs of the functions that use them.
    - [int] follows the interpreter without the limit on the number of
      digits of a literal (a run-time setting of the interpreter). *)

From Stdlib Require Import String Ascii List ZArith Bool Lia.
From Stdlib Require Import Numbers.DecimalString.
Import ListNotations.
Open Scope string_scope.
Open Scope Z_scope.

Set Implicit Arguments.

(** ** Exceptions and results *)

Module Py.

Inductive exn : Type :=
| KeyError
| ValueError (msg : string)
| JSONDecodeError (msg : string)   (* a subclass of ValueError *)
| IndexError
| TypeError
| AttributeError
| OverflowError
| FileNotFoundError
| EOFError.

Inductive result (A : Type) : Type :=
| Ok (a : A)
| Raise (e : exn).

Arguments Ok {A} a.
Arguments Raise {A} e.

Definition bind {A B : Type} (r : result A) (k : A -> result B) : result B :=
  match r with
  | Ok a => k a
  | Raise e => Raise e
  end.

(** [isinstance(e, ValueError)] *)
Definition is_ValueError (e : exn) : bool :=
  match e with
  | ValueError _ | JSONDecodeError _ => true
  | _ => false
  end.

End Py.

Import Py.

Notation "x <- c1 ;; c2" := (bind c1 (fun x => c2))
  (at level 61, c1 at next level, right associativity).

(** ** Text *)

Module Text.

Definition code (c : ascii) : Z := Z.of_N (N_of_ascii c).

Definition in_range (lo hi : Z) (c : ascii) : bool :=
  (lo <=? code c) && (code c <=? hi).

(** Characters with Numeric_Type Decimal: '0' .. '9'. *)
Definition is_decimal (c : ascii) : bool := in_range 48 57 c.

(** Characters [str.isdigit] accepts: the decimal digits and the
    superscripts two, three and one (U+00B2, U+00B3, U+00B9). *)
Definition is_digit_char (c : ascii) : bool :=
  is_decimal c || (code c =? 178) || (code c =? 179) || (code c =? 185).

(** Characters [str.split()], [str.strip()] and [int] treat as white
    space: U+0009 .. U+000D, U+001C .. U+0020, U+0085, U+00A0. *)
Definition is_space (c : ascii) : bool :=
  in_range 9 13 c || in_range 28 32 c || (code c =? 133) || (code c =? 160).

(** [c.lower()]: 'A' .. 'Z' and U+00C0 .. U+00DE without U+00D7. *)
Definition lower_char (c : ascii) : ascii :=
  if in_range 65 90 c || in_range 192 214 c || in_range 216 222 c
  then ascii_of_N (N_of_ascii c + 32)
  else c.

Fixpoint forall_chars (p : ascii -> bool) (s : string) : bool :=
  match s with
  | EmptyString => true
  | String c s' => p c && forall_chars p s'
  end.

(** [s.isdigit()] *)
Definition isdigit (s : string) : bool :=
  match s with
  | EmptyString => false
  | _ => forall_chars is_digit_char s
  end.

(** [s.lower()] *)
Fixpoint lower (s : string) : string :=
  match s with
  | EmptyString => EmptyString
  | String c s' => String (lower_char c) (lower s')
  end.

(** [s.startswith(p)] *)
Fixpoint startswith (p s : string) : bool :=
  match p, s with
  | EmptyString, _ => true
  | String a p', String b s' => Ascii.eqb a b && startswith p' s'
  | String _ _, EmptyString => false
  end.

(** [q in s] on two strings: [q] occurs in [s] as a contiguous run. *)
Fixpoint contains (q s : string) : bool :=
  startswith q s ||
  match s with
  | EmptyString => false
  | String _ s' => contains q s'
  end.

(** [s.split(sep)] for a separator of one character. *)
Fixpoint split_on (sep : ascii) (s : string) : list string :=
  match s with
  | EmptyString => [EmptyString]
  | String c s' =>
      if Ascii.eqb c sep then EmptyString :: split_on sep s'
      else match split_on sep s' with
           | w :: ws => String c w :: ws
           | [] => [String c EmptyString]
           end
  end.

(** [s.split()]: the maximal runs of characters that are not white
    space.  [cur] is the run being read, in reverse. *)
Fixpoint rev_string (acc : string) (s : string) : string :=
  match s with
  | EmptyString => acc
  | String c s' => rev_string (String c acc) s'
  end.

Definition flush (cur : string) (k : list string) : list string :=
  match cur with
  | EmptyString => k
  | _ => rev_string EmptyString cur :: k
  end.

Fixpoint split_ws (cur : string) (s : string) : list string :=
  match s with
  | EmptyString => flush cur []
  | String c s' =>
      if is_space c then flush cur (split_ws EmptyString s')
      else split_ws (String c cur) s'
  end.

Definition split (s : string) : list string := split_ws EmptyString s.

(** [s.strip()] *)
Fixpoint lstrip (s : string) : string :=
  match s with
  | String c s' => if is_space c then lstrip s' else s
  | EmptyString => EmptyString
  end.

Definition rstrip (s : string) : string :=
  rev_string EmptyString (lstrip (rev_string EmptyString s)).

Definition strip (s : string) : string := rstrip (lstrip s).

(** [sep.join(l)] *)
Fixpoint join (sep : string) (l : list string) : string :=
  match l with
  | [] => EmptyString
  | [x] => x
  | x :: rest => x ++ sep ++ join sep rest
  end.

(** [str(n)] for an integer. *)
Definition str_of_Z (n : Z) : string := NilZero.string_of_int (Z.to_int n).

(** [int(s)]: white space around, an optional sign, then decimal digits
    where a single underscore may stand between two digits. *)
Definition digit_value (c : ascii) : Z := code c - 48.

Fixpoint int_digits (acc : Z) (prev_digit : bool) (s : string) : option Z :=
  match s with
  | EmptyString => if prev_digit then Some acc else None
  | String c s' =>
      if is_decimal c then int_digits (acc * 10 + digit_value c) true s'
      else if Ascii.eqb c "_" then
             if prev_digit then int_digits acc false s' else None
      else None
  end.

Definition int_unsigned (s : string) : option Z :=
  match s with
  | String c _ => if is_decimal c then int_digits 0 false s else None
  | EmptyString => None
  end.

Definition int_msg : string := "invalid literal for int() with base 10".

Definition int (s : string) : result Z :=
  let body := strip s in
  let signed :=
    match body with
    | String "+" rest => int_unsigned rest
    | String "-" rest => option_map Z.opp (int_unsigned rest)
    | _ => int_unsigned body
    end in
  match signed with
  | Some z => Ok z
  | None => Raise (ValueError int_msg)
  end.

End Text.

(** ** Calendar dates ([datetime.date]) *)

Module Date.

Record date : Type := mkdate { year : Z; month : Z; day : Z }.

Definition MINYEAR : Z := 1.
Definition MAXYEAR : Z := 9999.

Definition is_leap (y : Z) : bool :=
  (y mod 4 =? 0) && (negb (y mod 100 =? 0) || (y mod 400 =? 0)).

Definition days_in_month (y m : Z) : Z :=
  if m =? 2 then (if is_leap y then 29 else 28)
  else if (m =? 4) || (m =? 6) || (m =? 9) || (m =? 11) then 30
  else 31.

(** Days before the first of January of year [y]. *)
Definition days_before_year (y : Z) : Z :=
  let p := y - 1 in p * 365 + p / 4 - p / 100 + p / 400.

Definition days_before_month_common (m : Z) : Z :=
  match m with
  | 1 => 0 | 2 => 31 | 3 => 59 | 4 => 90 | 5 => 120 | 6 => 151
  | 7 => 181 | 8 => 212 | 9 => 243 | 10 => 273 | 11 => 304 | _ => 334
  end.

(** Days of year [y] before the first day of month [m]. *)
Definition days_before_month (y m : Z) : Z :=
  days_before_month_common m + (if (2 <? m) && is_leap y then 1 else 0).

(** [d.toordinal()]: the first of January of year 1 is day 1. *)
Definition toordinal (d : date) : Z :=
  days_before_year (year d) + days_before_month (year d) (month d) + day d.

Definition valid (d : date) : bool :=
  (MINYEAR <=? year d) && (year d <=? MAXYEAR) &&
  (1 <=? month d) && (month d <=? 12) &&
  (1 <=? day d) && (day d <=? days_in_month (year d) (month d)).

(** The range of a C [int], the type the constructor reads its
    arguments into. *)
Definition c_int (z : Z) : bool := (- 2147483648 <=? z) && (z <=? 2147483647).

(** [date(year, month, day)] *)
Definition new (y m d : Z) : result date :=
  if negb (c_int y && c_int m && c_int d) then Raise OverflowError
  else if negb ((MINYEAR <=? y) && (y <=? MAXYEAR)) then
         Raise (ValueError "year is out of range")
  else if negb ((1 <=? m) && (m <=? 12)) then
         Raise (ValueError "month must be in 1..12")
  else if negb ((1 <=? d) && (d <=? days_in_month y m)) then
         Raise (ValueError "day is out of range for month")
  else Ok (mkdate y m d).

(** [d.replace(year=y)] *)
Definition replace_year (d : date) (y : Z) : result date :=
  new y (month d) (day d).

(** [a < b] *)
Definition ltb (a b : date) : bool :=
  (year a <? year b) ||
  ((year a =? year b) &&
   ((month a <? month b) || ((month a =? month b) && (day a <? day b)))).

(** [(a - b).days] *)
Definition days_between (a b : date) : Z := toordinal a - toordinal b.

End Date.

(** ** Fields *)

Inductive subtype : Type := Name | Phone | Birthday.

(** What a birthday field may hold: the text the validator reads, or the
    date object [days_to_birthday] expects. *)
Inductive bvalue : Type :=
| BText (s : string)
| BDate (d : Date.date).

Definition value_type (c : subtype) : Type :=
  match c with
  | Birthday => bvalue
  | Name | Phone => string
  end.

Record Field (c : subtype) : Type := mkField { _value : value_type c }.

Arguments mkField c _value : clear implicits.

(** [Field.__init__]: the attribute is written directly. *)
Definition Field_init (c : subtype) (value : value_type c) : Field c :=
  mkField c value.

(** The getter of the property [value]. *)
Definition value {c : subtype} (f : Field c) : value_type c := _value f.

Definition phone_msg : string := "Phone number should only contain digits.".
Definition birthday_msg : string :=
  "Invalid birthday format. Please use dd.mm format.".
Definition month_msg : string := "Invalid month value.".
Definition day_msg : string := "Invalid day value.".

(** [Name] inherits [Field.validate], which does nothing. *)
Definition Name_validate (value : string) : result unit := Ok tt.

Definition Phone_validate (value : string) : result unit :=
  if negb (Text.isdigit value) then Raise (ValueError phone_msg) else Ok tt.

(** [day, month = map(int, parts)]: the parts are converted one at a
    time as the unpacking asks for them; a third request tells whether
    the sequence is exhausted. *)
Definition unpack2 (parts : list string) : result (Z * Z) :=
  match parts with
  | [] => Raise (ValueError "not enough values to unpack")
  | [a] => _ <- Text.int a ;; Raise (ValueError "not enough values to unpack")
  | a :: b :: rest =>
      x <- Text.int a ;;
      y <- Text.int b ;;
      match rest with
      | [] => Ok (x, y)
      | c :: _ => _ <- Text.int c ;; Raise (ValueError "too many values to unpack")
      end
  end.

Definition Birthday_validate (value : bvalue) : result unit :=
  match value with
  | BDate _ => Raise AttributeError          (* a date has no [split] *)
  | BText s =>
      let attempt :=
        dm <- unpack2 (Text.split_on "." s) ;;
        _ <- Date.new 2000 (snd dm) (fst dm) ;;
        Ok dm in
      match attempt with
      | Raise e =>
          if is_ValueError e then Raise (ValueError birthday_msg) else Raise e
      | Ok (day, month) =>
          if (month <? 1) || (month >? 12) then Raise (ValueError month_msg)
          else if (day <? 1) || (day >? 31) then Raise (ValueError day_msg)
          else Ok tt
      end
  end.

Definition validate (c : subtype) : value_type c -> result unit :=
  match c with
  | Name => Name_validate
  | Phone => Phone_validate
  | Birthday => Birthday_validate
  end.

(** The setter of the property [value]: the outcome, and the field as
    the call leaves it. *)
Definition value_setter {c : subtype} (self : Field c) (new_value : value_type c)
  : result unit * Field c :=
  match validate c new_value with
  | Raise e => (Raise e, self)
  | Ok _ => (Ok tt, mkField c new_value)
  end.

(** ** Records *)

Record Record_ : Type := mkRecord {
  name : Field Name;
  phone : list (Field Phone);
  birthday : option (Field Birthday)
}.

(** Truth value of a value given for [birthday]: text is true unless
    empty, a date is always true. *)
Definition truthy (b : bvalue) : bool :=
  match b with
  | BText s => negb (String.eqb s "")
  | BDate _ => true
  end.

(** [Record.__init__(name, birthday=None)] *)
Definition Record_init (name : string) (birthday : option bvalue) : Record_ :=
  mkRecord (Field_init Name name) []
    (match birthday with
     | Some b => if truthy b then Some (Field_init Birthday b) else None
     | None => None
     end).

Definition add_phone (self : Record_) (p : string) : Record_ :=
  mkRecord (name self) (phone self ++ [Field_init Phone p]) (birthday self).

Definition remove_phone (self : Record_) (p : string) : Record_ :=
  mkRecord (name self)
    (filter (fun q : Field Phone => negb (String.eqb (value q) p)) (phone self))
    (birthday self).

(** The loop of [edit_phone] over the phone list: the outcome, and the
    list as the loop leaves it. *)
Fixpoint edit_loop (phones : list (Field Phone)) (old_phone new_phone : string)
  : result unit * list (Field Phone) :=
  match phones with
  | [] => (Ok tt, [])
  | p :: rest =>
      if String.eqb (value p) old_phone then
        let (r, p') := value_setter p new_phone in (r, p' :: rest)
      else
        let (r, rest') := edit_loop rest old_phone new_phone in (r, p :: rest')
  end.

Definition edit_phone (self : Record_) (old_phone new_phone : string)
  : result unit * Record_ :=
  let (r, phones) := edit_loop (phone self) old_phone new_phone in
  (r, mkRecord (name self) phones (birthday self)).

(** [self.birthday.value.replace(year=y)]: [str.replace] takes no keyword
    argument. *)
Definition value_replace_year (v : bvalue) (y : Z) : result Date.date :=
  match v with
  | BText _ => Raise TypeError
  | BDate d => Date.replace_year d y
  end.

Definition days_to_birthday (self : Record_) (today : Date.date)
  : result (option Z) :=
  match birthday self with
  | None => Ok None
  | Some b =>
      current_year_birthday <- value_replace_year (value b) (Date.year today) ;;
      next_birthday <-
        (if Date.ltb current_year_birthday today
         then Date.replace_year current_year_birthday (Date.year today + 1)
         else Ok current_year_birthday) ;;
      Ok (Some (Date.days_between next_birthday today))
  end.

(** ** Dictionaries keyed by text, in insertion order *)

Module Dict.

Section Dict.
Variable V : Type.

Definition t : Type := list (string * V).

Fixpoint get (k : string) (d : t) : option V :=
  match d with
  | [] => None
  | (k', v) :: rest => if String.eqb k' k then Some v else get k rest
  end.

(** [k in d] *)
Definition mem (k : string) (d : t) : bool :=
  match get k d with Some _ => true | None => false end.

(** [d[k] = v]: a key already present keeps its place. *)
Fixpoint set (k : string) (v : V) (d : t) : t :=
  match d with
  | [] => [(k, v)]
  | (k', v') :: rest =>
      if String.eqb k' k then (k', v) :: rest else (k', v') :: set k v rest
  end.

Definition keys (d : t) : list string := map fst d.
Definition values (d : t) : list V := map snd d.

End Dict.

End Dict.

(** ** The address book *)

Record AddressBook : Type := mkBook { data : Dict.t Record_ }.

Definition AddressBook_init : AddressBook := mkBook [].

Definition add_record (self : AddressBook) (record : Record_) : AddressBook :=
  mkBook (Dict.set (value (name record)) record (data self)).

(** [__iter__]: the records in the order of the dictionary. *)
Definition iter (self : AddressBook) : list Record_ := Dict.values (data self).

(** *** Files *)

(** One entry of the list under "contacts" in a saved file, as
    [load_address_book] reads it: the name, the values of the phone
    objects and the birthday (text or null). *)
Record entry : Type := mkEntry {
  e_name : string;
  e_phone : list string;
  e_birthday : option string
}.

(** What a file holds: text that is not JSON, or a contacts document. *)
Inductive file_content : Type :=
| NotJson
| Contacts (entries : list entry).

Definition filesystem : Type := string -> option file_content.

Definition write (fs : filesystem) (filename : string) (c : file_content)
  : filesystem :=
  fun f => if String.eqb f filename then Some c else fs f.

Definition json_msg : string := "Expecting value".

(** The encoder of [json.dump] knows dictionaries, lists, text and None;
    for an instance of any other class it raises TypeError. *)
Definition encode_field {c : subtype} (f : Field c) : result string :=
  Raise TypeError.

Fixpoint encode_list {c : subtype} (l : list (Field c)) : result (list string) :=
  match l with
  | [] => Ok []
  | f :: rest => x <- encode_field f ;; xs <- encode_list rest ;; Ok (x :: xs)
  end.

(** Encoding of [record.__dict__]: the attributes name, phone and
    birthday, in that order. *)
Definition encode_record (r : Record_) : result entry :=
  n <- encode_field (name r) ;;
  ps <- encode_list (phone r) ;;
  b <- match birthday r with
       | None => Ok None
       | Some f => x <- encode_field f ;; Ok (Some x)
       end ;;
  Ok (mkEntry n ps b).

Fixpoint encode_contacts (rs : list Record_) : result (list entry) :=
  match rs with
  | [] => Ok []
  | r :: rest => e <- encode_record r ;; es <- encode_contacts rest ;; Ok (e :: es)
  end.

(** [save_address_book]: the file is opened for writing (which empties
    it) and the encoder writes as it goes, so a failed dump leaves text
    that is cut short. *)
Definition save_address_book (self : AddressBook) (filename : string)
    (fs : filesystem) : result unit * filesystem :=
  match encode_contacts (Dict.values (data self)) with
  | Ok es => (Ok tt, write fs filename (Contacts es))
  | Raise e => (Raise e, write fs filename NotJson)
  end.

(** The record [load_address_book] builds from one entry. *)
Definition record_of_entry (record_data : entry) : Record_ :=
  fold_left add_phone (e_phone record_data)
    (Record_init (e_name record_data) (option_map BText (e_birthday record_data))).

(** [{record.name.value: record for record in records}] *)
Definition dict_of_records (records : list Record_) : Dict.t Record_ :=
  fold_left (fun d record => Dict.set (value (name record)) record d) records [].

Definition load_address_book (self : AddressBook) (filename : string)
    (fs : filesystem) : result unit * AddressBook :=
  match fs filename with
  | None => (Raise FileNotFoundError, self)
  | Some NotJson => (Raise (JSONDecodeError json_msg), self)
  | Some (Contacts contacts) =>
      let records := map record_of_entry contacts in
      (Ok tt, mkBook (dict_of_records records))
  end.

(** *** Search *)

Definition matches (query : string) (record : Record_) : bool :=
  Text.contains query (Text.lower (value (name record))) ||
  existsb (fun p : Field Phone => Text.contains query (value p)) (phone record).

Definition search_contacts (self : AddressBook) (query : string) : list Record_ :=
  fold_left
    (fun (results : list Record_) record =>
       if matches query record then (results ++ [record])%list else results)
    (Dict.values (data self)) [].

(** ** Command handlers *)

(** The decorator [input_error]: what the wrapper returns for the
    outcome of the wrapped call. *)
Definition input_error (r : result string) : result string :=
  match r with
  | Ok s => Ok s
  | Raise KeyError => Ok "Contact not found."
  | Raise (ValueError msg) => Ok msg
  | Raise (JSONDecodeError msg) => Ok msg
  | Raise IndexError => Ok "Invalid command."
  | Raise e => Raise e
  end.

(** A handler returns its outcome and the address book as it leaves it. *)
Definition handled : Type := (result string * AddressBook)%type.

Definition wrap (h : handled) : handled := (input_error (fst h), snd h).

(** [address_book.data[name]] *)
Definition lookup (book : AddressBook) (name : string) : result Record_ :=
  match Dict.get name (data book) with
  | Some r => Ok r
  | None => Raise KeyError
  end.

(** The record stored under [key] is replaced by its state after it was
    changed in place. *)
Definition store (book : AddressBook) (key : string) (r : Record_) : AddressBook :=
  mkBook (Dict.set key r (data book)).

Definition handle_hello : string := "How can I help you?".

Definition handle_add_body (name phone : string) (address_book : AddressBook)
    (birthday : option bvalue) : handled :=
  if Dict.mem name (data address_book) then
    (Ok "Contact added successfully.", address_book)
  else
    let record := Record_init name birthday in
    let record := add_phone record phone in
    (Ok "Contact added", add_record address_book record).

Definition handle_add (name phone : string) (address_book : AddressBook)
    (birthday : option bvalue) : handled :=
  wrap (handle_add_body name phone address_book birthday).

Definition handle_change_body (name phone : string) (address_book : AddressBook)
  : handled :=
  if negb (Dict.mem name (data address_book)) then
    (Ok "Contact not found.", address_book)
  else
    match lookup address_book name with
    | Raise e => (Raise e, address_book)
    | Ok record =>
        (Ok "Phone number changed successfully.",
         store address_book name (add_phone record phone))
    end.

Definition handle_change (name phone : string) (address_book : AddressBook)
  : handled :=
  wrap (handle_change_body name phone address_book).

Definition phones_of (r : Record_) : list string :=
  map (fun p : Field Phone => value p) (phone r).

Definition handle_phone_body (name : string) (address_book : AddressBook)
  : handled :=
  if negb (Dict.mem name (data address_book)) then
    (Ok "Contact not found.", address_book)
  else
    match lookup address_book name with
    | Raise e => (Raise e, address_book)
    | Ok record => (Ok (Text.join ", " (phones_of record)), address_book)
    end.

Definition handle_phone (name : string) (address_book : AddressBook) : handled :=
  wrap (handle_phone_body name address_book).

Definition handle_days_to_birthday_body (name : string)
    (address_book : AddressBook) (today : Date.date) : handled :=
  if negb (Dict.mem name (data address_book)) then
    (Ok "Contact not found.", address_book)
  else
    match lookup address_book name with
    | Raise e => (Raise e, address_book)
    | Ok record =>
        match days_to_birthday record today with
        | Raise e => (Raise e, address_book)
        | Ok None => (Ok "No birthday date provided.", address_book)
        | Ok (Some days) =>
            (Ok ("Days until " ++ name ++ "'s birthday: " ++ Text.str_of_Z days),
             address_book)
        end
    end.

Definition handle_days_to_birthday (name : string) (address_book : AddressBook)
    (today : Date.date) : handled :=
  wrap (handle_days_to_birthday_body name address_book today).

Definition nl : string := String "010"%char "".

Definition show_line (record : Record_) : string :=
  value (name record) ++ ": " ++ Text.join ", " (phones_of record) ++ nl.

Definition handle_show_all (address_book : AddressBook) (page page_size : Z)
  : string :=
  match data address_book with
  | [] => "No contacts found."
  | _ =>
      let len := Z.of_nat (List.length (data address_book)) in
      let total_pages := (len + page_size - 1) / page_size in
      if (page <? 1) || (page >? total_pages) then "Invalid page number."
      else
        let start_index := (page - 1) * page_size in
        let contacts :=
          firstn (Z.to_nat page_size)
            (skipn (Z.to_nat start_index) (Dict.values (data address_book))) in
        let output := fold_left (fun out r => out ++ show_line r) contacts "" in
        Text.strip
          (output ++ "Page " ++ Text.str_of_Z page ++ "/" ++ Text.str_of_Z total_pages)
  end.

(** ** The command loop *)

(** [_, a = command.split()] and [_, a, b = command.split()] *)
Definition unpack_two (parts : list string) : result string :=
  match parts with
  | [_; a] => Ok a
  | _ :: _ :: _ :: _ => Raise (ValueError "too many values to unpack")
  | _ => Raise (ValueError "not enough values to unpack")
  end.

Definition unpack_three (parts : list string) : result (string * string) :=
  match parts with
  | [_; a; b] => Ok (a, b)
  | _ :: _ :: _ :: _ :: _ => Raise (ValueError "too many values to unpack")
  | _ => Raise (ValueError "not enough values to unpack")
  end.

(** The state the loop works on. *)
Record world : Type := mkWorld { book : AddressBook; disk : filesystem }.

(** What one turn of the loop does with the line read: [Ok (Some r)]
    prints the response [r], [Ok None] leaves the loop, [Raise e] is an
    exception nothing catches. *)
Definition turn : Type := (result (option string) * world)%type.

Definition respond (w : world) (h : handled) : turn :=
  match fst h with
  | Ok r => (Ok (Some r), mkWorld (snd h) (disk w))
  | Raise e => (Raise e, mkWorld (snd h) (disk w))
  end.

Definition search_response (results : list Record_) : string :=
  match results with
  | [] => "No contacts found for the search query."
  | _ =>
      fold_left
        (fun response result =>
           response ++ value (name result) ++ ": " ++
           Text.join ", " (phones_of result) ++ nl)
        results ("Search results:" ++ nl)
  end.

(** One turn of [main] on the line read at the prompt; [today] is the
    date [date.today()] would give during the turn. *)
Definition dispatch (today : Date.date) (line : string) (w : world) : turn :=
  let command := Text.lower line in
  if String.eqb command "hello" then (Ok (Some handle_hello), w)
  else if Text.startswith "add" command then
    match Text.split command with
    | [_; name; phone] => respond w (handle_add name phone (book w) None)
    | [_; name; phone; birthday] =>
        respond w (handle_add name phone (book w) (Some (BText birthday)))
    | _ => (Ok (Some "Invalid command."), w)
    end
  else if Text.startswith "change" command then
    match unpack_three (Text.split command) with
    | Raise e => (Raise e, w)
    | Ok (name, phone) => respond w (handle_change name phone (book w))
    end
  else if Text.startswith "phone" command then
    match unpack_two (Text.split command) with
    | Raise e => (Raise e, w)
    | Ok name => respond w (handle_phone name (book w))
    end
  else if Text.startswith "days to birthday" command then
    match unpack_two (Text.split command) with
    | Raise e => (Raise e, w)
    | Ok name => respond w (handle_days_to_birthday name (book w) today)
    end
  else if Text.startswith "show all" command then
    let params := Text.split command in
    match (if (2 <? List.length params)%nat
           then Text.int (nth 2 params "") else Ok 1) with
    | Raise e => (Raise e, w)
    | Ok page => (Ok (Some (handle_show_all (book w) page 5)), w)
    end
  else if Text.startswith "save" command then
    match unpack_two (Text.split command) with
    | Raise e => (Raise e, w)
    | Ok filename =>
        match save_address_book (book w) filename (disk w) with
        | (Raise e, fs) => (Raise e, mkWorld (book w) fs)
        | (Ok _, fs) => (Ok (Some "Address book saved."), mkWorld (book w) fs)
        end
    end
  else if Text.startswith "load" command then
    match unpack_two (Text.split command) with
    | Raise e => (Raise e, w)
    | Ok filename =>
        match load_address_book (book w) filename (disk w) with
        | (Raise e, b) => (Raise e, mkWorld b (disk w))
        | (Ok _, b) => (Ok (Some "Address book loaded."), mkWorld b (disk w))
        end
    end
  else if Text.startswith "search" command then
    match unpack_two (Text.split command) with
    | Raise e => (Raise e, w)
    | Ok query =>
        (Ok (Some (search_response (search_contacts (book w) (Text.lower query)))), w)
    end
  else if existsb (String.eqb command) ["good bye"; "close"; "exit"] then
    (Ok None, w)
  else (Ok (Some "Invalid command."), w).

(** How a run of [main] ends. *)
Inductive ending : Type :=
| Exited                  (* the loop was left by [break] *)
| Crashed (e : exn).      (* an exception left [main] *)

Record run : Type := mkRun {
  printed : list string;
  final : world;
  how : ending
}.

(** [main] on the lines the prompt will read, in order.  At the end of
    the input [input] raises EOFError. *)
Fixpoint main_loop (today : Date.date) (lines : list string) (w : world)
    (out : list string) : run :=
  match lines with
  | [] => mkRun out w (Crashed EOFError)
  | line :: rest =>
      match dispatch today line w with
      | (Raise e, w') => mkRun out w' (Crashed e)
      | (Ok None, w') => mkRun out w' Exited
      | (Ok (Some response), w') => main_loop today rest w' (out ++ [response])
      end
  end.

Definition main (today : Date.date) (lines : list string) (fs : filesystem)
  : run :=
  main_loop today lines (mkWorld AddressBook_init fs) [].

(** ** Notions the specification is stated with *)

(** Text made of the decimal digits '0' .. '9' only, and not empty. *)
Definition decimal_only (s : string) : bool :=
  match s with
  | EmptyString => false
  | _ => Text.forall_chars Text.is_decimal s
  end.

(** [q] occurs in [s]: some text before it and some text after it make
    up [s]. *)
Definition Occurs (q s : string) : Prop :=
  exists before after : string, s = before ++ q ++ after.

(** The search as the specification words it: a record is kept when the
    query occurs in its name or in one of its phone values, letter case
    set aside on both sides. *)
Definition matches_spec (query : string) (record : Record_) : bool :=
  Text.contains (Text.lower query) (Text.lower (value (name record))) ||
  existsb (fun p : Field Phone =>
             Text.contains (Text.lower query) (Text.lower (value p)))
          (phone record).

Definition search_spec (self : AddressBook) (query : string) : list Record_ :=
  filter (matches_spec query) (iter self).

(** The address book as the specification compares two of them: the
    names with, for each, the phone values and the birthday. *)
Definition contents (self : AddressBook)
  : list (string * (list string * option bvalue)) :=
  map (fun kv : string * Record_ =>
         (fst kv, (phones_of (snd kv),
                   option_map (fun b : Field Birthday => value b) (birthday (snd kv)))))
      (data self).

(** ** Invariant of the book, pages *)

(** The keys of the book are the names of the records stored under
    them, and no key occurs twice. *)
Definition well_keyed (b : AddressBook) : Prop :=
  NoDup (Dict.keys (data b)) /\
  forall k r, In (k, r) (data b) -> value (name r) = k.

(** [total_pages] and the slice [contacts] of [handle_show_all]. *)
Definition total_pages (address_book : AddressBook) (page_size : Z) : Z :=
  (Z.of_nat (List.length (data address_book)) + page_size - 1) / page_size.

Definition page_contacts (address_book : AddressBook) (page page_size : Z)
  : list Record_ :=
  firstn (Z.to_nat page_size)
    (skipn (Z.to_nat ((page - 1) * page_size)) (Dict.values (data address_book))).

(** The exceptions [input_error] has a clause for. *)
Definition caught (e : exn) : bool :=
  match e with
  | KeyError | IndexError => true
  | _ => is_ValueError e
  end.

(** ** Sample data *)

Definition empty_disk : filesystem := fun _ => None.

(** The book after the command [add john 123]. *)
Definition john_book : AddressBook :=
  snd (handle_add "john" "123" AddressBook_init None).

(** The book after [add john 123 15.06]. *)
Definition john_birthday_book : AddressBook :=
  snd (handle_add "john" "123" AddressBook_init (Some (BText "15.06"))).

(** A saved file with one contact whose phone value is not digit-only. *)
Definition corrupted_disk : filesystem :=
  write empty_disk "book.json" (Contacts [mkEntry "john" ["12ab"] None]).

(** * Properties *)

(** ** Fields: validation on construction and on assignment *)

Section FieldProperties.

Variable c : subtype.

Lemma Field_init_value (v : value_type c) : value (Field_init c v) = v.
Proof. reflexivity. Qed.

Lemma value_setter_ok (f : Field c) (v : value_type c) :
  validate c v = Ok tt -> value_setter f v = (Ok tt, mkField c v).
Proof. intros H. unfold value_setter. now rewrite H. Qed.

Lemma value_setter_raise (f : Field c) (v : value_type c) (e : exn) :
  validate c v = Raise e -> value_setter f v = (Raise e, f).
Proof. intros H. unfold value_setter. now rewrite H. Qed.

(** X30. An assignment that goes through leaves a value the validator accepts. *)
Lemma value_setter_stores_valid (f f' : Field c) (v : value_type c) :
  value_setter f v = (Ok tt, f') -> validate c (value f') = Ok tt.
Proof.
  unfold value_setter. destruct (validate c v) as [[]|e] eqn:E; intros H.
  - inversion H; subst. exact E.
  - discriminate.
Qed.

End FieldProperties.

Lemma forall_chars_impl (p q : ascii -> bool) (s : string) :
  (forall ch, p ch = true -> q ch = true) ->
  Text.forall_chars p s = true -> Text.forall_chars q s = true.
Proof.
  intros Hpq. induction s as [|ch s IH]; simpl; [easy|].
  intros H. apply andb_true_iff in H as [H1 H2].
  apply andb_true_iff. split; auto.
Qed.

Lemma decimal_only_isdigit (s : string) :
  decimal_only s = true -> Text.isdigit s = true.
Proof.
  destruct s as [|ch s]; [discriminate|].
  unfold decimal_only, Text.isdigit.
  apply forall_chars_impl. intros x Hx. unfold Text.is_digit_char.
  rewrite Hx. reflexivity.
Qed.

(** The half of the Phone property that holds: digit-only text is
    accepted by the constructor, kept as it is, and passes the validator. *)
Lemma Phone_init_digits (s : string) :
  decimal_only s = true ->
  value (Field_init Phone s) = s /\ validate Phone (value (Field_init Phone s)) = Ok tt.
Proof.
  intros H. split; [reflexivity|].
  simpl. unfold Phone_validate. now rewrite (decimal_only_isdigit s H).
Qed.

(** C1. The specification: a Field never holds a value its validator rejects,
    because construction and assignment both validate.  At the inputs
    below the code departs from it: [Field.__init__] stores without
    validating, so the Phone that [add_phone] builds from "abc" and the
    Birthday that [Record.__init__] builds from "31.02" hold values their
    own validators reject. *)
Theorem construction_stores_unvalidated :
  (exists p, phone (add_phone (Record_init "bob" None) "abc") = [p] /\
             value p = "abc" /\
             validate Phone (value p) = Raise (ValueError phone_msg)) /\
  (exists b, birthday (Record_init "bob" (Some (BText "31.02"))) = Some b /\
             value b = BText "31.02" /\
             validate Birthday (value b) = Raise (ValueError birthday_msg)).
Proof.
  split.
  - exists (Field_init Phone "abc"). repeat split; reflexivity.
  - exists (Field_init Birthday (BText "31.02")). repeat split; vm_compute; reflexivity.
Qed.

(** C6. The specification: Phone construction succeeds on digit-only text and
    fails on text with a character that is not a decimal digit.  The code
    at "12a": the constructor returns a Phone holding "12a", although
    [Phone.validate] rejects that text. *)
Theorem Phone_init_accepts_non_digit :
  decimal_only "12a" = false /\
  value (Field_init Phone "12a") = "12a" /\
  Phone_validate "12a" = Raise (ValueError phone_msg).
Proof. repeat split; reflexivity. Qed.

(** C8. Assigning a value runs the validator of the field's subtype
    first: when the validator raises, the assignment raises the same
    error and the field is left as it was; when it accepts, the new
    value is stored. *)
Theorem value_setter_validates_before_commit
    (c : subtype) (f : Field c) (new_value : value_type c) :
  (forall e, validate c new_value = Raise e ->
             fst (value_setter f new_value) = Raise e /\
             snd (value_setter f new_value) = f /\
             value (snd (value_setter f new_value)) = value f) /\
  (validate c new_value = Ok tt ->
             fst (value_setter f new_value) = Ok tt /\
             value (snd (value_setter f new_value)) = new_value).
Proof.
  split.
  - intros e H. rewrite (value_setter_raise f new_value H). now repeat split.
  - intros H. rewrite (value_setter_ok f new_value H). now split.
Qed.

Lemma value_setter_validates_before_commit_witness :
  (validate Phone "12a" = Raise (ValueError phone_msg) /\
   fst (value_setter (Field_init Phone "555") "12a") = Raise (ValueError phone_msg) /\
   value (snd (value_setter (Field_init Phone "555") "12a")) = "555") /\
  (validate Phone "777" = Ok tt /\
   fst (value_setter (Field_init Phone "555") "777") = Ok tt /\
   value (snd (value_setter (Field_init Phone "555") "777")) = "777").
Proof.
  pose proof (value_setter_validates_before_commit (Field_init Phone "555") "12a") as [Hbad _].
  pose proof (value_setter_validates_before_commit (Field_init Phone "555") "777") as [_ Hgood].
  split.
  - split; [reflexivity|].
    destruct (Hbad (ValueError phone_msg) eq_refl) as (H1 & _ & H3). now split.
  - split; [reflexivity|].
    destruct (Hgood eq_refl) as (H1 & H2). now split.
Defined.

(** ** Records: editing a phone *)

Lemma edit_loop_no_match (phones : list (Field Phone)) (old_phone new_phone : string) :
  (forall p, In p phones -> value p <> old_phone) ->
  edit_loop phones old_phone new_phone = (Ok tt, phones).
Proof.
  induction phones as [|p rest IH]; intros H; simpl; [reflexivity|].
  destruct (String.eqb_spec (value p) old_phone) as [E|_].
  - exfalso. apply (H p); [now left | exact E].
  - rewrite IH; [reflexivity|]. intros q Hq. apply H. now right.
Qed.

Lemma edit_loop_first (pre post : list (Field Phone)) (p : Field Phone)
    (old_phone new_phone : string) :
  (forall q, In q pre -> value q <> old_phone) ->
  value p = old_phone ->
  edit_loop (pre ++ p :: post)%list old_phone new_phone =
  (fst (value_setter p new_phone), (pre ++ snd (value_setter p new_phone) :: post)%list).
Proof.
  intros Hpre Hp. induction pre as [|q pre IH]; simpl.
  - rewrite Hp, String.eqb_refl. now destruct (value_setter p new_phone).
  - destruct (String.eqb_spec (value q) old_phone) as [E|_].
    + exfalso. apply (Hpre q); [now left | exact E].
    + rewrite IH; [reflexivity|]. intros x Hx. apply Hpre. now right.
Qed.

(** C9. [edit_phone(old, new)] changes the first phone whose value is
    [old], and only that one: when [new] passes the Phone validator the
    phone takes the value [new] and every other phone stays as it was;
    when the validator rejects [new] the call raises and the record is
    unchanged; when no phone has the value [old] the call does nothing
    (and does not look at [new]). *)
Theorem edit_phone_first_match (r : Record_) (old_phone new_phone : string) :
  ((forall p, In p (phone r) -> value p <> old_phone) ->
   edit_phone r old_phone new_phone = (Ok tt, r)) /\
  (forall pre p post,
     phone r = (pre ++ p :: post)%list ->
     (forall q, In q pre -> value q <> old_phone) ->
     value p = old_phone ->
     (validate Phone new_phone = Ok tt ->
      edit_phone r old_phone new_phone =
      (Ok tt, mkRecord (name r) (pre ++ mkField Phone new_phone :: post)%list (birthday r))) /\
     (forall e, validate Phone new_phone = Raise e ->
      edit_phone r old_phone new_phone = (Raise e, r))).
Proof.
  destruct r as [n ps b]. unfold edit_phone. simpl. split.
  - intros H. now rewrite (edit_loop_no_match ps new_phone H).
  - intros pre p post -> Hpre Hp. rewrite (edit_loop_first pre post p new_phone Hpre Hp).
    split.
    + intros Hv. now rewrite (value_setter_ok p new_phone Hv).
    + intros e Hv. now rewrite (value_setter_raise p new_phone Hv).
Qed.

Lemma edit_phone_first_match_witness :
  let r := add_phone (add_phone (add_phone (Record_init "john" None) "111") "222") "222" in
  edit_phone r "333" "x" = (Ok tt, r) /\
  edit_phone r "222" "999" =
    (Ok tt, mkRecord (name r)
              [mkField Phone "111"; mkField Phone "999"; mkField Phone "222"]
              (birthday r)) /\
  edit_phone r "222" "9x9" = (Raise (ValueError phone_msg), r).
Proof.
  intros r.
  destruct (edit_phone_first_match r "333" "x") as [Hnone _].
  destruct (edit_phone_first_match r "222" "999") as [_ Hgood].
  destruct (edit_phone_first_match r "222" "9x9") as [_ Hbad].
  split; [|split].
  - apply Hnone. intros p [<-|[<-|[<-|[]]]]; discriminate.
  - apply (Hgood [mkField Phone "111"] (mkField Phone "222") [mkField Phone "222"]);
      [reflexivity | intros q [<-|[]]; discriminate | reflexivity | reflexivity].
  - apply (Hbad [mkField Phone "111"] (mkField Phone "222") [mkField Phone "222"]);
      [reflexivity | intros q [<-|[]]; discriminate | reflexivity | reflexivity].
Defined.

(** [remove_phone] keeps, in order, the phones whose value differs. *)
Lemma remove_phone_spec (r : Record_) (p : string) (q : Field Phone) :
  In q (phone (remove_phone r p)) <-> In q (phone r) /\ value q <> p.
Proof.
  unfold remove_phone. simpl. rewrite filter_In.
  destruct (String.eqb_spec (value q) p); simpl; intuition congruence.
Qed.

(** ** Records: days to the next birthday *)

Lemma days_in_month_bounds (y m : Z) : 28 <= Date.days_in_month y m <= 31.
Proof.
  unfold Date.days_in_month.
  destruct (m =? 2); [destruct (Date.is_leap y); lia|].
  destruct ((m =? 4) || (m =? 6) || (m =? 9) || (m =? 11)); lia.
Qed.

Lemma valid_bounds (d : Date.date) :
  Date.valid d = true ->
  1 <= Date.year d <= 9999 /\ 1 <= Date.month d <= 12 /\
  1 <= Date.day d <= Date.days_in_month (Date.year d) (Date.month d).
Proof.
  unfold Date.valid, Date.MINYEAR, Date.MAXYEAR. intros H.
  repeat (apply andb_true_iff in H as [H ?]). lia.
Qed.

(** The constructor accepts what [valid] accepts. *)
Lemma new_valid (y m d : Z) :
  Date.valid (Date.mkdate y m d) = true -> Date.new y m d = Ok (Date.mkdate y m d).
Proof.
  intros H. apply valid_bounds in H. simpl in H.
  pose proof (days_in_month_bounds y m) as B.
  unfold Date.new, Date.c_int, Date.MINYEAR, Date.MAXYEAR.
  repeat match goal with
         | |- context [?a <=? ?b] => destruct (Z.leb_spec a b); try lia
         end.
  reflexivity.
Qed.

Lemma new_Ok (y m d : Z) (x : Date.date) :
  Date.new y m d = Ok x -> x = Date.mkdate y m d /\ Date.valid x = true.
Proof.
  unfold Date.new, Date.c_int, Date.MINYEAR, Date.MAXYEAR. intros Hx.
  repeat match type of Hx with
         | context [?a <=? ?b] => destruct (Z.leb_spec a b); simpl in Hx; try discriminate
         end.
  inversion Hx; subst. split; [reflexivity|].
  unfold Date.valid, Date.MINYEAR, Date.MAXYEAR. simpl.
  repeat match goal with
         | |- context [?a <=? ?b] => destruct (Z.leb_spec a b); simpl; try lia
         end; reflexivity.
Qed.

Lemma ltb_irrefl (d : Date.date) : Date.ltb d d = false.
Proof.
  unfold Date.ltb. rewrite !Z.ltb_irrefl, !Z.eqb_refl. reflexivity.
Qed.

(** No birthday: the method falls through and returns None. *)
Lemma days_to_birthday_none (r : Record_) (today : Date.date) :
  birthday r = None -> days_to_birthday r today = Ok None.
Proof. intros H. unfold days_to_birthday. now rewrite H. Qed.

(** A birthday held as a date object whose day and month are today's: 0. *)
Lemma days_to_birthday_today (r : Record_) (b : Field Birthday)
    (d today : Date.date) :
  birthday r = Some b -> value b = BDate d ->
  Date.valid today = true ->
  Date.month d = Date.month today -> Date.day d = Date.day today ->
  days_to_birthday r today = Ok (Some 0).
Proof.
  intros Hb Hv Ht Hm Hd. unfold days_to_birthday. rewrite Hb, Hv. simpl.
  unfold Date.replace_year. rewrite Hm, Hd.
  destruct today as [y m dd]. simpl.
  rewrite (new_valid _ _ _ Ht). simpl. rewrite ltb_irrefl. simpl.
  unfold Date.days_between. f_equal. f_equal. lia.
Qed.

(** *** The date arithmetic, for a birthday held as a date object *)

Lemma days_before_year_succ (y : Z) :
  Date.days_before_year (y + 1) =
  Date.days_before_year y + 365 + (if Date.is_leap y then 1 else 0).
Proof.
  unfold Date.days_before_year, Date.is_leap.
  replace (y + 1 - 1) with y by lia.
  destruct (Z.eqb_spec (y mod 4) 0), (Z.eqb_spec (y mod 100) 0), (Z.eqb_spec (y mod 400) 0);
    simpl; Z.to_euclidean_division_equations; lia.
Qed.

Ltac month_cases m :=
  let H := fresh in
  assert (H : m = 1 \/ m = 2 \/ m = 3 \/ m = 4 \/ m = 5 \/ m = 6 \/ m = 7 \/
              m = 8 \/ m = 9 \/ m = 10 \/ m = 11 \/ m = 12) by lia;
  repeat (destruct H as [H|H]); subst m.

Lemma same_year_span (y m d m' d' : Z) :
  1 <= m <= 12 -> 1 <= d <= Date.days_in_month y m ->
  1 <= m' <= 12 -> 1 <= d' <= Date.days_in_month y m' ->
  Date.ltb (Date.mkdate y m d) (Date.mkdate y m' d') = false ->
  let n := Date.toordinal (Date.mkdate y m d) - Date.toordinal (Date.mkdate y m' d') in
  0 <= n <= 365 /\ (n = 0 <-> m = m' /\ d = d').
Proof.
  intros Hm Hd Hm' Hd' Hlt. unfold Date.ltb in Hlt. simpl in Hlt.
  rewrite Z.ltb_irrefl, Z.eqb_refl in Hlt. simpl in Hlt.
  unfold Date.toordinal, Date.days_before_month. simpl.
  unfold Date.days_in_month in *.
  destruct (Date.is_leap y);
  month_cases m; month_cases m'; simpl in *; 
  try discriminate; try (destruct (Z.ltb_spec d d'); try discriminate); lia.
Qed.

Lemma next_year_span (y m d m' d' : Z) :
  1 <= m <= 12 -> 1 <= d <= Date.days_in_month (y + 1) m ->
  1 <= m' <= 12 -> 1 <= d' <= Date.days_in_month y m' ->
  Date.ltb (Date.mkdate y m d) (Date.mkdate y m' d') = true ->
  1 <= Date.toordinal (Date.mkdate (y + 1) m d) - Date.toordinal (Date.mkdate y m' d') <= 365.
Proof.
  intros Hm Hd Hm' Hd' Hlt. unfold Date.ltb in Hlt. simpl in Hlt.
  rewrite Z.ltb_irrefl, Z.eqb_refl in Hlt. simpl in Hlt.
  unfold Date.toordinal, Date.days_before_month. simpl.
  rewrite days_before_year_succ.
  unfold Date.days_in_month in *.
  destruct (Date.is_leap y); destruct (Date.is_leap (y + 1));
  month_cases m; month_cases m'; simpl in *;
  try discriminate; try (destruct (Z.ltb_spec d d'); try discriminate); lia.
Qed.

(** X28. A birthday held as a date object: a number the method returns lies
    between 0 and 365, and is 0 exactly when the day and month are
    today's. *)
Lemma days_to_birthday_date_range (r : Record_) (b : Field Birthday)
    (d today : Date.date) (n : Z) :
  birthday r = Some b -> value b = BDate d ->
  Date.valid today = true ->
  days_to_birthday r today = Ok (Some n) ->
  0 <= n <= 365 /\
  (n = 0 <-> Date.month d = Date.month today /\ Date.day d = Date.day today).
Proof.
  intros Hb Hv Ht. unfold days_to_birthday. rewrite Hb, Hv. simpl.
  unfold Date.replace_year.
  destruct (Date.new (Date.year today) (Date.month d) (Date.day d)) as [cur|e] eqn:Ecur;
    simpl; [|discriminate].
  apply new_Ok in Ecur as [-> Vcur]. apply valid_bounds in Vcur. simpl in Vcur.
  apply valid_bounds in Ht. destruct today as [y m' d']. simpl in *.
  destruct (Date.ltb (Date.mkdate y (Date.month d) (Date.day d)) (Date.mkdate y m' d')) eqn:Elt.
  - destruct (Date.new (y + 1) (Date.month d) (Date.day d)) as [nxt|e] eqn:Enxt;
      simpl; [|discriminate].
    apply new_Ok in Enxt as [-> Vnxt]. apply valid_bounds in Vnxt. simpl in Vnxt.
    intros H. inversion H; subst n. unfold Date.days_between.
    assert (S := @next_year_span y (Date.month d) (Date.day d) m' d'
                   ltac:(tauto) ltac:(tauto) ltac:(tauto) ltac:(tauto) Elt).
    assert (Hne : ~ (Date.month d = m' /\ Date.day d = d')).
    { intros [E1 E2]. rewrite E1, E2, ltb_irrefl in Elt. discriminate. }
    split; [|split; [|tauto]]; lia.
  - simpl. intros H. inversion H; subst n. unfold Date.days_between.
    apply same_year_span; tauto.
Qed.

(** X29. A birthday held as a date object that is not the 29th of February:
    the method returns a number, in every year the calendar can still
    follow by one. *)
Lemma days_to_birthday_date_returns (r : Record_) (b : Field Birthday)
    (d today : Date.date) :
  birthday r = Some b -> value b = BDate d ->
  Date.valid d = true -> Date.valid today = true ->
  Date.year today < Date.MAXYEAR ->
  ~ (Date.month d = 2 /\ Date.day d = 29) ->
  exists n, days_to_birthday r today = Ok (Some n).
Proof.
  intros Hb Hv Vd Vt Hy Hfeb. unfold days_to_birthday. rewrite Hb, Hv. simpl.
  unfold Date.replace_year, Date.MAXYEAR in *.
  apply valid_bounds in Vd. apply valid_bounds in Vt.
  assert (Hany : forall y, 1 <= y <= 9999 ->
            Date.valid (Date.mkdate y (Date.month d) (Date.day d)) = true).
  { intros y Hyr. unfold Date.valid, Date.MINYEAR, Date.MAXYEAR. simpl.
    assert (Date.day d <= Date.days_in_month y (Date.month d)).
    { unfold Date.days_in_month in *.
      destruct (Date.month d =? 2) eqn:E2.
      - apply Z.eqb_eq in E2. destruct (Date.is_leap (Date.year d)), (Date.is_leap y); lia.
      - lia. }
    repeat match goal with
           | |- context [?a <=? ?b] => destruct (Z.leb_spec a b); simpl; try lia
           end; reflexivity. }
  rewrite (new_valid _ _ _ (Hany (Date.year today) ltac:(lia))). simpl.
  destruct (Date.ltb _ today).
  - rewrite (new_valid _ _ _ (Hany (Date.year today + 1) ltac:(lia))). simpl. eauto.
  - simpl. eauto.
Qed.

(** C2. The specification: without a birthday [days_to_birthday] returns None,
    and with one it returns the number of days to the next occurrence
    of its day and month, 0 when that is today.  The code on a record
    whose birthday holds text, the "dd.mm" form that [Birthday.validate]
    reads and that the add command and [load_address_book] store: the
    call [value.replace(year=...)] is made on that text and raises
    TypeError, whatever the date is. *)
Theorem days_to_birthday_text_raises (r : Record_) (b : Field Birthday)
    (s : string) (today : Date.date) :
  birthday r = Some b -> value b = BText s ->
  days_to_birthday r today = Raise TypeError.
Proof.
  intros Hb Hv. unfold days_to_birthday. rewrite Hb, Hv. reflexivity.
Qed.

Lemma days_to_birthday_text_raises_witness :
  validate Birthday (BText "15.06") = Ok tt /\
  days_to_birthday (Record_init "john" (Some (BText "15.06")))
                   (Date.mkdate 2024 6 15) = Raise TypeError.
Proof.
  split; [vm_compute; reflexivity|].
  apply (@days_to_birthday_text_raises
           (Record_init "john" (Some (BText "15.06")))
           (Field_init Birthday (BText "15.06")) "15.06" (Date.mkdate 2024 6 15));
    reflexivity.
Defined.

(** ** Text: occurrence and letter case *)

Lemma startswith_iff (q s : string) :
  Text.startswith q s = true <-> exists rest, s = q ++ rest.
Proof.
  revert s. induction q as [|a q IH]; intros s; simpl.
  - split; [intros _; now exists s | reflexivity].
  - destruct s as [|b s].
    + split; [discriminate | intros [rest H]; discriminate].
    + rewrite andb_true_iff, IH. split.
      * intros [Hab [rest ->]]. apply Ascii.eqb_eq in Hab. subst. now exists rest.
      * intros [rest H]. inversion H; subst. split; [apply Ascii.eqb_refl | now exists rest].
Qed.

Lemma contains_iff (q s : string) : Text.contains q s = true <-> Occurs q s.
Proof.
  unfold Occurs. induction s as [|b s IH].
  - simpl. rewrite orb_false_r, startswith_iff. split.
    + intros [rest H]. now exists "", rest.
    + intros [before [after H]]. destruct before; simpl in H.
      * now exists after.
      * discriminate.
  - cbn [Text.contains]. rewrite orb_true_iff, startswith_iff, IH. split.
    + intros [[rest H]|[before [after H]]].
      * now exists "", rest.
      * exists (String b before), after. simpl. now rewrite H.
    + intros [before [after H]]. destruct before as [|x before]; simpl in H.
      * left. now exists after.
      * right. inversion H; subst. now exists before, after.
Qed.

Lemma lower_char_idempotent (ch : ascii) :
  Text.lower_char (Text.lower_char ch) = Text.lower_char ch.
Proof. destruct ch as [[] [] [] [] [] [] [] []]; reflexivity. Qed.

Lemma lower_idempotent (s : string) : Text.lower (Text.lower s) = Text.lower s.
Proof.
  induction s as [|ch s IH]; simpl; [reflexivity|].
  now rewrite lower_char_idempotent, IH.
Qed.

Lemma digit_char_lower (ch : ascii) :
  Text.is_digit_char ch = true -> Text.lower_char ch = ch.
Proof. destruct ch as [[] [] [] [] [] [] [] []]; (reflexivity || discriminate). Qed.

(** Text that [isdigit] accepts has no letter case. *)
Lemma isdigit_lower (s : string) : Text.isdigit s = true -> Text.lower s = s.
Proof.
  destruct s as [|ch0 s0]; [discriminate|]. unfold Text.isdigit.
  generalize (String ch0 s0). clear. intros s.
  induction s as [|ch s IH]; simpl; [reflexivity|].
  intros H. apply andb_true_iff in H as [H1 H2].
  now rewrite (digit_char_lower _ H1), IH.
Qed.

(** ** The address book: search *)

Lemma search_fold (query : string) (rs acc : list Record_) :
  fold_left
    (fun (results : list Record_) record =>
       if matches query record then (results ++ [record])%list else results)
    rs acc = (acc ++ filter (matches query) rs)%list.
Proof.
  revert acc. induction rs as [|r rs IH]; intros acc; simpl.
  - now rewrite app_nil_r.
  - rewrite IH. destruct (matches query r); [|reflexivity].
    now rewrite <- app_assoc.
Qed.

(** The loop of [search_contacts] keeps, in the order of the book, the
    records that match. *)
Lemma search_contacts_filter (book : AddressBook) (query : string) :
  search_contacts book query = filter (matches query) (iter book).
Proof. unfold search_contacts. now rewrite search_fold. Qed.

Lemma matches_iff (query : string) (r : Record_) :
  matches query r = true <->
  Occurs query (Text.lower (value (name r))) \/
  exists p, In p (phone r) /\ Occurs query (value p).
Proof.
  unfold matches. rewrite orb_true_iff, contains_iff, existsb_exists.
  split; (intros [H|[p [H1 H2]]]; [now left | right; exists p]);
    (split; [exact H1 | now apply contains_iff]).
Qed.

Lemma existsb_agree (A : Type) (f g : A -> bool) (l : list A) :
  (forall x, In x l -> f x = g x) -> existsb f l = existsb g l.
Proof.
  induction l as [|x l IH]; intros H; simpl; [reflexivity|].
  rewrite (H x (or_introl eq_refl)), IH; [reflexivity|].
  intros y Hy. apply H. now right.
Qed.

(** C7, as amended.  [search_contacts] returns, in the iteration order
    of the book, exactly the records in which the query as it was given
    occurs in the lower-cased name or in a phone value as it is stored.
    For a query that is already lower case, over a book whose phone
    values have no letter case (digit-only text has none), this is the
    search that sets letter case aside. *)
Theorem search_contacts_amended (book : AddressBook) (query : string) :
  search_contacts book query = filter (matches query) (iter book) /\
  (forall r, In r (search_contacts book query) <->
             In r (iter book) /\
             (Occurs query (Text.lower (value (name r))) \/
              exists p, In p (phone r) /\ Occurs query (value p))) /\
  (Text.lower query = query ->
   (forall r p, In r (iter book) -> In p (phone r) ->
                Text.lower (value p) = value p) ->
   search_contacts book query = search_spec book query).
Proof.
  split; [apply search_contacts_filter|]. split.
  - intros r. rewrite search_contacts_filter, filter_In, matches_iff. reflexivity.
  - intros Hq Hp. rewrite search_contacts_filter. unfold search_spec.
    apply filter_ext_in. intros r Hr. unfold matches, matches_spec.
    rewrite Hq. f_equal. apply existsb_agree. intros p Hin.
    now rewrite (Hp r p Hr Hin).
Qed.

Lemma search_contacts_amended_witness :
  Text.lower "jo" = "jo" /\
  search_contacts john_book "jo" = search_spec john_book "jo" /\
  search_contacts john_book "jo" = iter john_book.
Proof.
  destruct (search_contacts_amended john_book "jo") as (Hf & _ & Hs).
  split; [reflexivity|]. split.
  - apply Hs; [reflexivity|].
    intros r p [<-|[]] [<-|[]]. reflexivity.
  - rewrite Hf. reflexivity.
Defined.

(** C7, as the specification words it, fails: for the query "JOHN" the search
    that sets letter case aside keeps the record of john, and
    [search_contacts] returns nothing, since it compares the query as
    given with the lower-cased name. *)
Lemma search_contacts_case_counterexample :
  search_spec john_book "JOHN" = iter john_book /\
  search_contacts john_book "JOHN" = [] /\
  search_contacts john_book "JOHN" <> search_spec john_book "JOHN".
Proof. split; [reflexivity|]. split; [reflexivity|]. discriminate. Qed.

(** ** The address book: adding under a name already present *)

(** C10. When the book already has a record under [name], [handle_add]
    answers "Contact added successfully." and leaves the book as it
    was: the phone and birthday given are dropped. *)
Theorem handle_add_existing (nm ph : string) (address_book : AddressBook)
    (bd : option bvalue) :
  Dict.mem nm (data address_book) = true ->
  handle_add nm ph address_book bd =
  (Ok "Contact added successfully.", address_book).
Proof.
  intros H. unfold handle_add, handle_add_body, wrap. now rewrite H.
Qed.

Lemma handle_add_existing_witness :
  Dict.mem "john" (data john_book) = true /\
  handle_add "john" "999" john_book (Some (BText "01.01")) =
  (Ok "Contact added successfully.", john_book) /\
  Dict.get "john" (data john_book) =
  Some (mkRecord (mkField Name "john") [mkField Phone "123"] None).
Proof.
  split; [reflexivity|]. split; [|reflexivity].
  apply (@handle_add_existing "john" "999" john_book (Some (BText "01.01"))).
  reflexivity.
Defined.

(** A name not yet present: the record is built and stored. *)
Lemma handle_add_fresh (nm ph : string) (address_book : AddressBook)
    (bd : option bvalue) :
  Dict.mem nm (data address_book) = false ->
  handle_add nm ph address_book bd =
  (Ok "Contact added",
   add_record address_book (add_phone (Record_init nm bd) ph)).
Proof.
  intros H. unfold handle_add, handle_add_body, wrap. now rewrite H.
Qed.

(** ** The address book: saving and loading *)

Lemma encode_contacts_nonempty (r : Record_) (rest : list Record_) :
  encode_contacts (r :: rest) = Raise TypeError.
Proof. reflexivity. Qed.

(** Saving a book that has a record raises TypeError and leaves a file
    that is not JSON. *)
Lemma save_nonempty (self : AddressBook) (filename : string) (fs : filesystem) :
  data self <> [] ->
  save_address_book self filename fs = (Raise TypeError, write fs filename NotJson).
Proof.
  destruct self as [[|[k r] rest]]; simpl; [congruence|]. intros _. reflexivity.
Qed.

(** Saving the empty book and loading the file gives the empty book. *)
Lemma save_load_empty (other : AddressBook) (filename : string) (fs : filesystem) :
  save_address_book AddressBook_init filename fs =
    (Ok tt, write fs filename (Contacts [])) /\
  load_address_book other filename (write fs filename (Contacts [])) =
    (Ok tt, AddressBook_init).
Proof.
  split; [reflexivity|]. unfold load_address_book, write.
  now rewrite String.eqb_refl.
Qed.

(** C3. The specification: saving a book and loading the file gives back a book
    with the same names, phones and birthdays.  The code on the book
    that holds the one contact john: [json.dump] meets the Name object
    of the record and raises TypeError, the file is left with text that
    is not JSON, and loading it raises in turn; nothing of the book is
    read back. *)
Theorem save_then_load_one_contact :
  contents john_book = [("john", (["123"], None))] /\
  fst (save_address_book john_book "book.json" empty_disk) = Raise TypeError /\
  snd (save_address_book john_book "book.json" empty_disk) "book.json" = Some NotJson /\
  load_address_book AddressBook_init "book.json"
    (snd (save_address_book john_book "book.json" empty_disk)) =
  (Raise (JSONDecodeError json_msg), AddressBook_init).
Proof. repeat split. Qed.

Lemma load_missing (self : AddressBook) (filename : string) (fs : filesystem) :
  fs filename = None ->
  load_address_book self filename fs = (Raise FileNotFoundError, self).
Proof. intros H. unfold load_address_book. now rewrite H. Qed.

Lemma load_not_json (self : AddressBook) (filename : string) (fs : filesystem) :
  fs filename = Some NotJson ->
  load_address_book self filename fs = (Raise (JSONDecodeError json_msg), self).
Proof. intros H. unfold load_address_book. now rewrite H. Qed.

Lemma fold_add_phone (ps : list string) (r : Record_) :
  fold_left add_phone ps r =
  mkRecord (name r) (phone r ++ map (Field_init Phone) ps)%list (birthday r).
Proof.
  revert r. induction ps as [|p ps IH]; intros r; simpl.
  - rewrite app_nil_r. now destruct r.
  - rewrite IH. simpl. now rewrite <- app_assoc.
Qed.

(** The record built from an entry holds the entry's name and phone
    values as they are in the file: no validator runs on them. *)
Lemma record_of_entry_contents (e : entry) :
  value (name (record_of_entry e)) = e_name e /\
  phones_of (record_of_entry e) = e_phone e.
Proof.
  unfold record_of_entry, phones_of. rewrite fold_add_phone. simpl. split; [reflexivity|].
  rewrite map_map. simpl. apply map_id.
Qed.

(** A load that succeeds puts the records of the file in place of the
    data held before. *)
Lemma load_replaces (self : AddressBook) (filename : string) (fs : filesystem)
    (es : list entry) :
  fs filename = Some (Contacts es) ->
  load_address_book self filename fs =
  (Ok tt, mkBook (dict_of_records (map record_of_entry es))).
Proof. intros H. unfold load_address_book. now rewrite H. Qed.

(** C5. The specification: a file with a phone value that is not digit-only
    makes the load fail with a validation error; a missing or malformed
    file makes it fail; a load that succeeds replaces the data.  The
    code on a file whose one contact has the phone value "12ab": the
    load succeeds and the book holds a Phone with that value, which
    [Phone.validate] rejects. *)
Theorem load_accepts_corrupted_phone :
  validate Phone "12ab" = Raise (ValueError phone_msg) /\
  fst (load_address_book john_book "book.json" corrupted_disk) = Ok tt /\
  contents (snd (load_address_book john_book "book.json" corrupted_disk)) =
  [("john", (["12ab"], None))].
Proof. repeat split. Qed.

(** ** Errors in the command loop *)

Lemma input_error_caught (e : exn) :
  e = KeyError \/ is_ValueError e = true \/ e = IndexError ->
  exists msg, input_error (Raise e) = Ok msg.
Proof.
  intros [->|[H| ->]]; simpl; eauto.
  destruct e; try discriminate; simpl; eauto.
Qed.

Lemma input_error_passes (e : exn) :
  e <> KeyError -> is_ValueError e = false -> e <> IndexError ->
  input_error (Raise e) = Raise e.
Proof. destruct e; simpl; congruence. Qed.

(** The handlers the loop can reach return a response on every input. *)
Lemma handle_add_returns (nm ph : string) (b : AddressBook) (bd : option bvalue) :
  exists msg, fst (handle_add nm ph b bd) = Ok msg.
Proof.
  unfold handle_add, handle_add_body, wrap.
  destruct (Dict.mem nm (data b)); simpl; eauto.
Qed.

Lemma handle_change_returns (nm ph : string) (b : AddressBook) :
  exists msg, fst (handle_change nm ph b) = Ok msg.
Proof.
  unfold handle_change, handle_change_body, wrap, lookup, Dict.mem.
  destruct (Dict.get nm (data b)); simpl; eauto.
Qed.

Lemma handle_phone_returns (nm : string) (b : AddressBook) :
  exists msg, fst (handle_phone nm b) = Ok msg.
Proof.
  unfold handle_phone, handle_phone_body, wrap, lookup, Dict.mem.
  destruct (Dict.get nm (data b)); simpl; eauto.
Qed.

(** C4. The specification: every error of a command is caught and turned into a
    message, none ends the process.  The code: [input_error] catches
    KeyError, ValueError and IndexError only, so the TypeError that
    [handle_days_to_birthday] meets on a contact with a birthday leaves
    the handler; and the loop itself raises outside any handler, on
    [change john] (a wrong number of words), on [load] of a missing
    file, on [save] of a book that has a contact and on [show all x]. *)
Theorem errors_escape_the_loop :
  fst (handle_days_to_birthday "john" john_birthday_book (Date.mkdate 2024 6 15))
    = Raise TypeError /\
  how (main (Date.mkdate 2024 6 15) ["change john"] empty_disk)
    = Crashed (ValueError "not enough values to unpack") /\
  how (main (Date.mkdate 2024 6 15) ["load book.json"] empty_disk)
    = Crashed FileNotFoundError /\
  how (main (Date.mkdate 2024 6 15) ["add john 123"; "save book.json"] empty_disk)
    = Crashed TypeError /\
  how (main (Date.mkdate 2024 6 15) ["show all x"] empty_disk)
    = Crashed (ValueError Text.int_msg).
Proof. repeat split. Qed.

(** The command [days to birthday <name>] never reaches its handler on
    this input: the line has more than two words. *)
Example days_to_birthday_command :
  how (main (Date.mkdate 2024 6 15)
         ["add john 123 15.06"; "days to birthday john"] empty_disk)
  = Crashed (ValueError "too many values to unpack").
Proof. reflexivity. Qed.

(** A session in which no command fails. *)
Example session :
  printed (main (Date.mkdate 2024 6 15)
             ["hello"; "add john 123"; "add john 456"; "change john 789";
              "phone john"; "search JO"; "show all"; "exit"] empty_disk)
  = ["How can I help you?"; "Contact added"; "Contact added successfully.";
     "Phone number changed successfully."; "123, 789";
     "Search results:" ++ nl ++ "john: 123, 789" ++ nl;
     "john: 123, 789" ++ nl ++ "Page 1/1"].
Proof. reflexivity. Qed.


(** * Further properties *)

(** ** Dictionaries *)

Section DictFacts.
Variable V : Type.
Implicit Types (d : Dict.t V) (k : string) (v : V).

Lemma get_set_same k v d : Dict.get k (Dict.set k v d) = Some v.
Proof.
  induction d as [|[k' v'] d IH]; simpl.
  - now rewrite String.eqb_refl.
  - destruct (String.eqb_spec k' k) as [E|N]; simpl.
    + now rewrite (proj2 (String.eqb_eq k' k) E).
    + now rewrite (proj2 (String.eqb_neq k' k) N).
Qed.

Lemma get_set_other k k' v d :
  k <> k' -> Dict.get k' (Dict.set k v d) = Dict.get k' d.
Proof.
  intros N. induction d as [|[k0 v0] d IH]; simpl.
  - now rewrite (proj2 (String.eqb_neq k k') N).
  - destruct (String.eqb_spec k0 k) as [E|N0]; simpl.
    + subst k0. now rewrite (proj2 (String.eqb_neq k k') N).
    + now rewrite IH.
Qed.

Lemma mem_true_in k d : Dict.mem k d = true <-> In k (Dict.keys d).
Proof.
  unfold Dict.mem, Dict.keys. induction d as [|[k0 v0] d IH]; simpl.
  - split; [discriminate | tauto].
  - destruct (String.eqb_spec k0 k) as [E|N].
    + split; auto.
    + rewrite IH. split; [auto | intros [E|H]; [contradiction | exact H]].
Qed.

Lemma keys_set k v d :
  Dict.keys (Dict.set k v d) =
  if Dict.mem k d then Dict.keys d else (Dict.keys d ++ [k])%list.
Proof.
  unfold Dict.mem, Dict.keys. induction d as [|[k0 v0] d IH]; simpl; [reflexivity|].
  destruct (String.eqb_spec k0 k) as [E|N]; simpl; [reflexivity|].
  rewrite IH. now destruct (Dict.get k d).
Qed.

Lemma in_set k v d k' v' :
  In (k', v') (Dict.set k v d) -> (k' = k /\ v' = v) \/ In (k', v') d.
Proof.
  induction d as [|[k0 v0] d IH]; simpl.
  - intros [E|[]]. inversion E. now left.
  - destruct (String.eqb_spec k0 k) as [E|N]; simpl.
    + intros [H|H]; [inversion H; subst; now left | right; now right].
    + intros [H|H]; [right; now left|]. destruct (IH H) as [L|R]; [now left | right; now right].
Qed.

Lemma get_in k v d : Dict.get k d = Some v -> In (k, v) d.
Proof.
  induction d as [|[k0 v0] d IH]; simpl; [discriminate|].
  destruct (String.eqb_spec k0 k) as [E|N].
  - intros H. inversion H; subst. now left.
  - intros H. right. auto.
Qed.

Lemma NoDup_keys_set k v d :
  NoDup (Dict.keys d) -> NoDup (Dict.keys (Dict.set k v d)).
Proof.
  intros H. rewrite keys_set. destruct (Dict.mem k d) eqn:E; [exact H|].
  apply NoDup_app; [exact H | repeat constructor; simpl; tauto |].
  intros x Hx [<-|[]]. apply mem_true_in in Hx. congruence.
Qed.

End DictFacts.

(** ** The address book: adding and looking up *)

(** X1. After [add_record] the record is found under its name, and
    every other name gives what it gave before. *)
Theorem add_record_lookup (b : AddressBook) (r : Record_) :
  Dict.get (value (name r)) (data (add_record b r)) = Some r /\
  forall k, k <> value (name r) ->
            Dict.get k (data (add_record b r)) = Dict.get k (data b).
Proof.
  unfold add_record. simpl. split.
  - apply get_set_same.
  - intros k N. apply get_set_other. congruence.
Qed.

(** X2. [add_record] under a name already present keeps the order of
    the names (the record takes the place of the old one); under a new
    name the name goes last. *)
Theorem add_record_order (b : AddressBook) (r : Record_) :
  Dict.keys (data (add_record b r)) =
  if Dict.mem (value (name r)) (data b)
  then Dict.keys (data b)
  else (Dict.keys (data b) ++ [value (name r)])%list.
Proof. unfold add_record. simpl. apply keys_set. Qed.

Lemma well_keyed_empty : well_keyed AddressBook_init.
Proof. split; [constructor | intros k r []]. Qed.

Lemma well_keyed_set (b : AddressBook) (k : string) (r : Record_) :
  well_keyed b -> value (name r) = k -> well_keyed (mkBook (Dict.set k r (data b))).
Proof.
  intros [Hn Hk] E. split; simpl.
  - now apply NoDup_keys_set.
  - intros k' r' H. apply in_set in H as [[-> ->]|H]; [exact E | now apply Hk].
Qed.

(** X3. [add_record] keeps the book well keyed: names stay unique and
    each record stays under its own name. *)
Theorem add_record_well_keyed (b : AddressBook) (r : Record_) :
  well_keyed b -> well_keyed (add_record b r).
Proof. intros H. now apply well_keyed_set. Qed.

Lemma add_record_well_keyed_witness :
  well_keyed john_book /\
  well_keyed (add_record john_book (add_phone (Record_init "john" None) "999")).
Proof.
  assert (H : well_keyed john_book).
  { split; [repeat constructor; simpl; tauto|].
    intros k r [E|[]]. inversion E. reflexivity. }
  split; [exact H|].
  apply (@add_record_well_keyed john_book (add_phone (Record_init "john" None) "999") H).
Defined.

(** ** Handlers *)

(** X4. [handle_add] under a new name followed by [handle_phone] for
    that name answers the phone that was given, whatever its form. *)
Theorem handle_add_then_phone (nm ph : string) (b : AddressBook)
    (bd : option bvalue) :
  Dict.mem nm (data b) = false ->
  fst (handle_add nm ph b bd) = Ok "Contact added" /\
  handle_phone nm (snd (handle_add nm ph b bd)) =
  (Ok ph, snd (handle_add nm ph b bd)).
Proof.
  intros H. unfold handle_add, handle_add_body, wrap. rewrite H. simpl.
  split; [reflexivity|].
  unfold handle_phone, handle_phone_body, wrap, lookup, Dict.mem, add_record. simpl.
  rewrite get_set_same. reflexivity.
Qed.

Lemma handle_add_then_phone_witness :
  Dict.mem "ann" (data john_book) = false /\
  fst (handle_add "ann" "4x4" john_book None) = Ok "Contact added" /\
  fst (handle_phone "ann" (snd (handle_add "ann" "4x4" john_book None))) = Ok "4x4".
Proof.
  split; [reflexivity|].
  destruct (@handle_add_then_phone "ann" "4x4" john_book None eq_refl) as [H1 H2].
  split; [exact H1|]. now rewrite H2.
Defined.

(** X5. [handle_change] does not replace a number: it appends the new
    phone, with no validation, to the phones of the contact, and leaves
    the other contacts and the order of the names as they were. *)
Theorem handle_change_appends (nm ph : string) (b : AddressBook) (r : Record_) :
  Dict.get nm (data b) = Some r ->
  fst (handle_change nm ph b) = Ok "Phone number changed successfully." /\
  (exists r', Dict.get nm (data (snd (handle_change nm ph b))) = Some r' /\
              phones_of r' = (phones_of r ++ [ph])%list /\
              name r' = name r /\ birthday r' = birthday r) /\
  (forall k, k <> nm ->
             Dict.get k (data (snd (handle_change nm ph b))) = Dict.get k (data b)) /\
  Dict.keys (data (snd (handle_change nm ph b))) = Dict.keys (data b).
Proof.
  intros H. unfold handle_change, handle_change_body, wrap, lookup, Dict.mem.
  rewrite H. simpl. split; [reflexivity|]. split; [|split].
  - exists (add_phone r ph). split; [apply get_set_same|].
    unfold phones_of, add_phone. simpl. rewrite map_app. now repeat split.
  - intros k N. apply get_set_other. congruence.
  - rewrite keys_set. unfold Dict.mem. now rewrite H.
Qed.

Lemma handle_change_appends_witness :
  Dict.get "john" (data john_book) =
    Some (mkRecord (mkField Name "john") [mkField Phone "123"] None) /\
  fst (handle_change "john" "4x4" john_book) = Ok "Phone number changed successfully." /\
  fst (handle_phone "john" (snd (handle_change "john" "4x4" john_book))) = Ok "123, 4x4".
Proof.
  split; [reflexivity|].
  destruct (@handle_change_appends "john" "4x4" john_book _ eq_refl) as (H1 & _).
  split; [exact H1 | reflexivity].
Defined.

(** X6. For a name the book does not have, [handle_change],
    [handle_phone] and [handle_days_to_birthday] answer
    "Contact not found." and leave the book as it was. *)
Theorem handlers_contact_not_found (nm ph : string) (b : AddressBook)
    (today : Date.date) :
  Dict.mem nm (data b) = false ->
  handle_change nm ph b = (Ok "Contact not found.", b) /\
  handle_phone nm b = (Ok "Contact not found.", b) /\
  handle_days_to_birthday nm b today = (Ok "Contact not found.", b).
Proof.
  intros H.
  unfold handle_change, handle_change_body, handle_phone, handle_phone_body,
    handle_days_to_birthday, handle_days_to_birthday_body, wrap.
  rewrite H. simpl. now repeat split.
Qed.

Lemma handlers_contact_not_found_witness :
  Dict.mem "ann" (data john_book) = false /\
  handle_change "ann" "1" john_book = (Ok "Contact not found.", john_book) /\
  handle_phone "ann" john_book = (Ok "Contact not found.", john_book).
Proof.
  split; [reflexivity|].
  destruct (@handlers_contact_not_found "ann" "1" john_book (Date.mkdate 2024 1 1) eq_refl)
    as (H1 & H2 & _).
  now split.
Defined.


(** X8. [input_error] turns an exception into a message exactly when
    it is a KeyError, a ValueError (or a subclass) or an IndexError;
    every other exception leaves the wrapper as it is, and a value
    returned is passed on. *)
Theorem input_error_catches_exactly (e : exn) :
  ((exists msg, input_error (Raise e) = Ok msg) <-> caught e = true) /\
  (caught e = false -> input_error (Raise e) = Raise e) /\
  (forall s, input_error (Ok s) = Ok s).
Proof.
  split; [|split].
  - destruct e; simpl; split; intros H; eauto; try discriminate;
      destruct H as [msg H]; discriminate.
  - destruct e; simpl; intros H; (reflexivity || discriminate).
  - reflexivity.
Qed.

(** ** The command loop *)

Lemma respond_book (w : world) (h : handled) : book (snd (respond w h)) = snd h.
Proof. unfold respond. now destruct (fst h). Qed.

Lemma handle_add_keeps_keyed (nm ph : string) (b : AddressBook) (bd : option bvalue) :
  well_keyed b -> well_keyed (snd (handle_add nm ph b bd)).
Proof.
  intros H. unfold handle_add, handle_add_body, wrap.
  destruct (Dict.mem nm (data b)); simpl; [exact H|].
  apply well_keyed_set; [exact H|]. now destruct bd as [[s|d]|]; simpl; try destruct (negb _).
Qed.

Lemma handle_change_keeps_keyed (nm ph : string) (b : AddressBook) :
  well_keyed b -> well_keyed (snd (handle_change nm ph b)).
Proof.
  intros H. unfold handle_change, handle_change_body, wrap, lookup, Dict.mem.
  destruct (Dict.get nm (data b)) as [r|] eqn:E; simpl; [|exact H].
  apply well_keyed_set; [exact H|]. simpl. destruct H as [_ Hk].
  apply Hk. now apply get_in.
Qed.

Lemma handle_phone_book (nm : string) (b : AddressBook) : snd (handle_phone nm b) = b.
Proof.
  unfold handle_phone, handle_phone_body, wrap, lookup, Dict.mem.
  now destruct (Dict.get nm (data b)).
Qed.

Lemma handle_days_to_birthday_book (nm : string) (b : AddressBook) (today : Date.date) :
  snd (handle_days_to_birthday nm b today) = b.
Proof.
  unfold handle_days_to_birthday, handle_days_to_birthday_body, wrap, lookup, Dict.mem.
  destruct (Dict.get nm (data b)); simpl; [|reflexivity].
  now destruct (days_to_birthday r today) as [[n|]|e].
Qed.

Lemma fold_set_keeps_keyed (rs : list Record_) (d : Dict.t Record_) :
  well_keyed (mkBook d) ->
  well_keyed (mkBook (fold_left (fun d record => Dict.set (value (name record)) record d) rs d)).
Proof.
  revert d. induction rs as [|r rs IH]; intros d H; simpl; [exact H|].
  apply IH. now apply (@well_keyed_set (mkBook d)).
Qed.

Lemma load_keeps_keyed (self : AddressBook) (filename : string) (fs : filesystem) :
  well_keyed self -> well_keyed (snd (load_address_book self filename fs)).
Proof.
  intros H. unfold load_address_book.
  destruct (fs filename) as [[|es]|]; simpl; try exact H.
  apply fold_set_keeps_keyed. apply well_keyed_empty.
Qed.

Lemma dispatch_keeps_keyed (today : Date.date) (line : string) (w : world) :
  well_keyed (book w) -> well_keyed (book (snd (dispatch today line w))).
Proof.
  intros H. unfold dispatch.
  repeat match goal with
         | |- context [if ?c then _ else _] => destruct c
         | |- context [match Text.split ?x with _ => _ end] => destruct (Text.split x)
         | |- context [match ?l with [] => _ | _ :: _ => _ end] => destruct l
         | |- context [match unpack_two ?x with _ => _ end] => destruct (unpack_two x)
         | |- context [match unpack_three ?x with _ => _ end] =>
             destruct (unpack_three x) as [[? ?]|?]
         | |- context [match Text.int ?x with _ => _ end] => destruct (Text.int x)
         | |- context [match save_address_book ?a ?b ?c with _ => _ end] =>
             destruct (save_address_book a b c) as [[?|?] ?]
         | |- context [match load_address_book ?a ?b ?c with _ => _ end] =>
             let E := fresh "E" in
             pose proof (@load_keeps_keyed a b c H) as E;
             destruct (load_address_book a b c) as [[?|?] ?]
         end;
    simpl; rewrite ?respond_book, ?handle_phone_book, ?handle_days_to_birthday_book;
    auto using handle_add_keeps_keyed, handle_change_keeps_keyed.
Qed.

(** X9. Whatever is typed, the book a run of [main] ends with is well
    keyed: no name occurs twice and every record is stored under its
    own name. *)
Theorem main_keeps_book_well_keyed (today : Date.date) (lines : list string)
    (fs : filesystem) :
  well_keyed (book (final (main today lines fs))).
Proof.
  unfold main.
  assert (G : forall w out, well_keyed (book w) ->
              well_keyed (book (final (main_loop today lines w out)))).
  { induction lines as [|line rest IH]; intros w out H; simpl; [exact H|].
    pose proof (dispatch_keeps_keyed today line w H) as K.
    destruct (dispatch today line w) as [[[response|]|e] w']; simpl in *; auto. }
  apply G. apply well_keyed_empty.
Qed.

(** X10. A line that is, letter case aside, "good bye", "close" or
    "exit" ends the loop at once: nothing is printed for it, the book
    and the files stay as they are, and the lines after it are not
    read. *)
Theorem exit_commands_end_the_loop (today : Date.date) (line : string)
    (rest : list string) (w : world) (out : list string) :
  In (Text.lower line) ["good bye"; "close"; "exit"] ->
  main_loop today (line :: rest) w out = mkRun out w Exited.
Proof.
  intros H. simpl. unfold dispatch.
  destruct H as [<-|[<-|[<-|[]]]]; reflexivity.
Qed.

Lemma exit_commands_end_the_loop_witness :
  main (Date.mkdate 2024 6 15) ["Good Bye"; "add john 123"] empty_disk =
  mkRun [] (mkWorld AddressBook_init empty_disk) Exited.
Proof.
  apply (@exit_commands_end_the_loop (Date.mkdate 2024 6 15) "Good Bye"
           ["add john 123"] (mkWorld AddressBook_init empty_disk) []).
  simpl. tauto.
Defined.

Lemma split_ws_nonempty (s : string) (ch : ascii) (cur : string) :
  exists x l, Text.split_ws (String ch cur) s = x :: l.
Proof.
  revert ch cur. induction s as [|a s IH]; intros ch cur; simpl.
  - eauto.
  - destruct (Text.is_space a); [simpl; eauto | apply IH].
Qed.

(** X11. The command [days to birthday <name>] cannot be used: every
    line that starts with these words has more than two words, so the
    loop raises ValueError when it unpacks them, before the handler is
    called, and [main] ends. *)
Theorem days_to_birthday_command_always_raises (today : Date.date)
    (line : string) (w : world) :
  Text.startswith "days to birthday" (Text.lower line) = true ->
  dispatch today line w = (Raise (ValueError "too many values to unpack"), w).
Proof.
  intros H. apply startswith_iff in H as [rest E].
  unfold dispatch. rewrite E. clear E. unfold Text.split. simpl.
  destruct (split_ws_nonempty rest "y" "adhtrib") as (x & l & ->).
  reflexivity.
Qed.

Lemma days_to_birthday_command_always_raises_witness :
  Text.startswith "days to birthday" (Text.lower "Days To Birthday John") = true /\
  dispatch (Date.mkdate 2024 6 15) "Days To Birthday John"
    (mkWorld john_birthday_book empty_disk)
  = (Raise (ValueError "too many values to unpack"),
     mkWorld john_birthday_book empty_disk).
Proof.
  split; [reflexivity|].
  apply (@days_to_birthday_command_always_raises (Date.mkdate 2024 6 15)
           "Days To Birthday John" (mkWorld john_birthday_book empty_disk)).
  reflexivity.
Defined.

(** ** Search *)

Lemma contains_empty (s : string) : Text.contains "" s = true.
Proof. destruct s; reflexivity. Qed.

Lemma startswith_refl (s : string) : Text.startswith s s = true.
Proof.
  induction s as [|ch s IH]; simpl; [reflexivity|].
  now rewrite Ascii.eqb_refl, IH.
Qed.

Lemma contains_refl (s : string) : Text.contains s s = true.
Proof. destruct s; simpl; [reflexivity|]. now rewrite Ascii.eqb_refl, startswith_refl. Qed.

(** X12. The empty query matches every record: [search_contacts]
    returns the whole book, in its order. *)
Theorem search_empty_query (b : AddressBook) :
  search_contacts b "" = iter b.
Proof.
  rewrite search_contacts_filter. unfold iter.
  induction (Dict.values (data b)) as [|r rs IH]; simpl; [reflexivity|].
  unfold matches at 1. rewrite contains_empty. simpl. now rewrite IH.
Qed.

(** X13. A record of the book is found by its name written in lower
    case and by each of its phone values written as stored. *)
Theorem search_finds_by_name_and_phone (b : AddressBook) (r : Record_) :
  In r (iter b) ->
  In r (search_contacts b (Text.lower (value (name r)))) /\
  forall p, In p (phone r) -> In r (search_contacts b (value p)).
Proof.
  intros H. split.
  - rewrite search_contacts_filter. apply filter_In. split; [exact H|].
    unfold matches. now rewrite contains_refl.
  - intros p Hp. rewrite search_contacts_filter. apply filter_In. split; [exact H|].
    unfold matches. apply orb_true_iff. right. apply existsb_exists.
    exists p. split; [exact Hp | apply contains_refl].
Qed.

Lemma search_finds_by_name_and_phone_witness :
  search_contacts john_book "john" = iter john_book /\
  search_contacts john_book "123" = iter john_book.
Proof.
  assert (H : In (mkRecord (mkField Name "john") [mkField Phone "123"] None)
                 (iter john_book)) by (left; reflexivity).
  destruct (@search_finds_by_name_and_phone john_book _ H) as [H1 H2].
  split; reflexivity.
Defined.

(** ** Loading and saving *)

Lemma find_append (A : Type) (f : A -> bool) (l1 l2 : list A) :
  find f (l1 ++ l2)%list =
  match find f l1 with Some x => Some x | None => find f l2 end.
Proof.
  induction l1 as [|x l1 IH]; simpl; [reflexivity|]. now destruct (f x).
Qed.

Lemma get_fold_set (rs : list Record_) (d : Dict.t Record_) (n : string) :
  Dict.get n (fold_left (fun d record => Dict.set (value (name record)) record d) rs d) =
  match find (fun r => String.eqb (value (name r)) n) (rev rs) with
  | Some r => Some r
  | None => Dict.get n d
  end.
Proof.
  revert d. induction rs as [|r rs IH]; intros d; simpl; [reflexivity|].
  rewrite IH. rewrite find_append.
  destruct (find _ (rev rs)) as [r'|]; [reflexivity|]. simpl.
  destruct (String.eqb_spec (value (name r)) n) as [E|N].
  - rewrite <- E. apply get_set_same.
  - now apply get_set_other.
Qed.

Lemma find_rev_map (es : list entry) (n : string) :
  find (fun r => String.eqb (value (name r)) n) (rev (map record_of_entry es)) =
  option_map record_of_entry (find (fun e => String.eqb (e_name e) n) (rev es)).
Proof.
  rewrite <- map_rev. induction (rev es) as [|e l IH]; simpl; [reflexivity|].
  unfold record_of_entry at 1. rewrite fold_add_phone. simpl.
  destruct (String.eqb (e_name e) n); [|exact IH].
  simpl. unfold record_of_entry. now rewrite fold_add_phone.
Qed.

(** X14. After a load that succeeds, a name gives the record built
    from the last entry of the file that carries it, and a name no
    entry carries gives nothing, whatever the book held before. *)
Theorem load_last_entry_wins (self : AddressBook) (filename : string)
    (fs : filesystem) (es : list entry) (n : string) :
  fs filename = Some (Contacts es) ->
  fst (load_address_book self filename fs) = Ok tt /\
  Dict.get n (data (snd (load_address_book self filename fs))) =
  option_map record_of_entry (find (fun e => String.eqb (e_name e) n) (rev es)).
Proof.
  intros H. unfold load_address_book. rewrite H. simpl. split; [reflexivity|].
  unfold dict_of_records. rewrite get_fold_set, find_rev_map.
  now destruct (find _ (rev es)).
Qed.

Lemma load_last_entry_wins_witness :
  let fs := write empty_disk "f"
              (Contacts [mkEntry "ann" ["1"] None; mkEntry "ann" ["2"] (Some "01.02")]) in
  Dict.get "ann" (data (snd (load_address_book john_book "f" fs))) =
    Some (record_of_entry (mkEntry "ann" ["2"] (Some "01.02"))) /\
  Dict.get "john" (data (snd (load_address_book john_book "f" fs))) = None.
Proof.
  intros fs.
  destruct (@load_last_entry_wins john_book "f" fs _ "ann" eq_refl) as [_ H1].
  destruct (@load_last_entry_wins john_book "f" fs _ "john" eq_refl) as [_ H2].
  split; [exact H1 | exact H2].
Defined.






(** ** Records: phones *)

Lemma phones_of_filter (r : Record_) (p : string) :
  phones_of (remove_phone r p) =
  filter (fun q => negb (String.eqb q p)) (phones_of r).
Proof.
  unfold phones_of, remove_phone. simpl.
  induction (phone r) as [|x l IH]; simpl; [reflexivity|].
  destruct (String.eqb (value x) p); simpl; now rewrite IH.
Qed.

Lemma filter_all (A : Type) (f : A -> bool) (l : list A) :
  (forall x, In x l -> f x = true) -> filter f l = l.
Proof.
  induction l as [|x l IH]; intros H; simpl; [reflexivity|].
  rewrite (H x (or_introl eq_refl)), IH; [reflexivity|].
  intros y Hy. apply H. now right.
Qed.

(** X18. [remove_phone] removes every phone with the given value, not
    only the first; the other values stay; and when no phone has the
    value the record is unchanged. *)
Theorem remove_phone_removes_all (r : Record_) (p : string) :
  ~ In p (phones_of (remove_phone r p)) /\
  (forall q, q <> p ->
     count_occ string_dec (phones_of (remove_phone r p)) q =
     count_occ string_dec (phones_of r) q) /\
  (~ In p (phones_of r) -> remove_phone r p = r).
Proof.
  split; [|split].
  - rewrite phones_of_filter, filter_In. intros [_ H].
    now rewrite String.eqb_refl in H.
  - intros q N. rewrite phones_of_filter.
    induction (phones_of r) as [|x l IH]; simpl; [reflexivity|].
    destruct (String.eqb_spec x p) as [E|E]; simpl.
    + subst x. destruct (string_dec p q); [congruence | exact IH].
    + destruct (string_dec x q); now rewrite IH.
  - intros H. destruct r as [n ps b]. unfold remove_phone. simpl. f_equal.
    apply filter_all. intros x Hx. apply negb_true_iff, String.eqb_neq.
    intros E. apply H. unfold phones_of. simpl. apply in_map_iff. now exists x.
Qed.

Lemma remove_phone_removes_all_witness :
  let r := add_phone (add_phone (add_phone (Record_init "john" None) "1") "2") "1" in
  phones_of (remove_phone r "1") = ["2"] /\ remove_phone r "3" = r.
Proof.
  intros r. destruct (remove_phone_removes_all r "3") as (_ & _ & H).
  split; [reflexivity|]. apply H. simpl. intuition discriminate.
Defined.

(** X19. Adding a phone value the record did not have and removing it
    again gives back the record. *)
Theorem add_then_remove_phone (r : Record_) (p : string) :
  ~ In p (phones_of r) -> remove_phone (add_phone r p) p = r.
Proof.
  intros H. destruct r as [n ps b]. unfold remove_phone, add_phone. simpl. f_equal.
  rewrite filter_app. simpl. rewrite String.eqb_refl. simpl. rewrite app_nil_r.
  apply filter_all. intros x Hx. apply negb_true_iff, String.eqb_neq.
  intros E. apply H. unfold phones_of. simpl. apply in_map_iff. now exists x.
Qed.

Lemma add_then_remove_phone_witness :
  remove_phone (add_phone (add_phone (Record_init "john" None) "1") "2") "2" =
  add_phone (Record_init "john" None) "1".
Proof.
  apply (@add_then_remove_phone (add_phone (Record_init "john" None) "1") "2").
  simpl. intuition discriminate.
Defined.

Lemma edit_loop_length (ps : list (Field Phone)) (o n : string) :
  List.length (snd (edit_loop ps o n)) = List.length ps.
Proof.
  induction ps as [|p ps IH]; simpl; [reflexivity|].
  destruct (String.eqb (value p) o).
  - now destruct (value_setter p n).
  - destruct (edit_loop ps o n). simpl in *. now rewrite IH.
Qed.

(** X20. Whatever its outcome, [edit_phone] leaves the name, the
    birthday and the number of phones of the record as they were. *)
Theorem edit_phone_keeps_shape (r : Record_) (old_phone new_phone : string) :
  name (snd (edit_phone r old_phone new_phone)) = name r /\
  birthday (snd (edit_phone r old_phone new_phone)) = birthday r /\
  List.length (phone (snd (edit_phone r old_phone new_phone))) = List.length (phone r).
Proof.
  unfold edit_phone. pose proof (edit_loop_length (phone r) old_phone new_phone) as L.
  destruct (edit_loop (phone r) old_phone new_phone). simpl in *. now repeat split.
Qed.

(** ** Fields: the Birthday validator *)

Lemma int_raises_ValueError (s : string) (e : exn) :
  Text.int s = Raise e -> is_ValueError e = true.
Proof.
  unfold Text.int.
  match goal with |- context [match ?x with Some _ => _ | None => _ end] => destruct x end;
    intros H; inversion H. reflexivity.
Qed.

Lemma unpack2_raises_ValueError (parts : list string) (e : exn) :
  unpack2 parts = Raise e -> is_ValueError e = true.
Proof.
  destruct parts as [|a [|b rest]]; simpl.
  - intros H. now inversion H.
  - destruct (Text.int a) eqn:E; simpl; intros H; inversion H; subst;
      [reflexivity | now apply (int_raises_ValueError a)].
  - destruct (Text.int a) eqn:Ea; simpl;
      [|intros H; inversion H; subst; now apply (int_raises_ValueError a)].
    destruct (Text.int b) eqn:Eb; simpl;
      [|intros H; inversion H; subst; now apply (int_raises_ValueError b)].
    destruct rest as [|c rest]; [discriminate|].
    destruct (Text.int c) eqn:Ec; simpl; intros H; inversion H; subst;
      [reflexivity | now apply (int_raises_ValueError c)].
Qed.

Lemma unpack2_Ok (parts : list string) (x y : Z) :
  unpack2 parts = Ok (x, y) <->
  exists a b, parts = [a; b] /\ Text.int a = Ok x /\ Text.int b = Ok y.
Proof.
  split.
  - destruct parts as [|a [|b [|c rest]]]; simpl.
    + discriminate.
    + destruct (Text.int a); discriminate.
    + destruct (Text.int a) eqn:Ea; simpl; [|discriminate].
      destruct (Text.int b) eqn:Eb; simpl; [|discriminate].
      intros H. inversion H; subst. now exists a, b.
    + destruct (Text.int a); simpl; [|discriminate].
      destruct (Text.int b); simpl; [|discriminate].
      destruct (Text.int c); discriminate.
  - intros (a & b & -> & Ha & Hb). simpl. now rewrite Ha, Hb.
Qed.

Lemma new_2000_Ok (m d : Z) :
  (exists x, Date.new 2000 m d = Ok x) <->
  1 <= m <= 12 /\ 1 <= d <= Date.days_in_month 2000 m.
Proof.
  split.
  - intros [x H]. apply new_Ok in H as [-> V]. apply valid_bounds in V. simpl in V. lia.
  - intros [Hm Hd]. exists (Date.mkdate 2000 m d). apply new_valid.
    unfold Date.valid, Date.MINYEAR, Date.MAXYEAR. simpl.
    repeat match goal with
           | |- context [?a <=? ?b] => destruct (Z.leb_spec a b); simpl; try lia
           end; reflexivity.
Qed.

Lemma new_raises (y m d : Z) (e : exn) :
  Date.new y m d = Raise e -> e = OverflowError \/ is_ValueError e = true.
Proof.
  unfold Date.new.
  repeat match goal with
         | |- context [if ?c then _ else _] => destruct c
         end; intros H; inversion H; auto.
Qed.

(** X21. [Birthday.validate] accepts a text exactly when it splits at
    the dots into two parts that [int] reads as a day and a month of
    the year 2000 (a leap year). *)
Theorem Birthday_validate_accepts_iff (s : string) :
  validate Birthday (BText s) = Ok tt <->
  exists a b day month,
    Text.split_on "." s = [a; b] /\
    Text.int a = Ok day /\ Text.int b = Ok month /\
    1 <= month <= 12 /\ 1 <= day <= Date.days_in_month 2000 month.
Proof.
  simpl. unfold Birthday_validate. split.
  - destruct (unpack2 (Text.split_on "." s)) as [[day month]|e] eqn:U; simpl.
    + apply unpack2_Ok in U as (a & b & Hs & Ha & Hb).
      destruct (Date.new 2000 month day) as [x|e] eqn:N; simpl.
      * intros _. exists a, b, day, month. repeat split; auto;
          apply (proj1 (new_2000_Ok month day)); eauto.
      * destruct (is_ValueError e); discriminate.
    + destruct (is_ValueError e); discriminate.
  - intros (a & b & day & month & Hs & Ha & Hb & Hm & Hd).
    rewrite (proj2 (unpack2_Ok (Text.split_on "." s) day month));
      [|now exists a, b]. simpl.
    destruct (proj2 (new_2000_Ok month day) (conj Hm Hd)) as [x ->]. simpl.
    pose proof (days_in_month_bounds 2000 month).
    destruct (Z.ltb_spec month 1); [lia|]. destruct (Z.gtb_spec month 12); [lia|].
    destruct (Z.ltb_spec day 1); [lia|]. destruct (Z.gtb_spec day 31); [lia|].
    reflexivity.
Qed.

(** X22. What [Birthday.validate] can raise.  On text it is the
    ValueError with the format message or, for a number that does not
    fit a C int, OverflowError; on a date object it is AttributeError.
    The checks that follow the [try] never fire: "Invalid month value."
    and "Invalid day value." are never raised. *)
Theorem Birthday_validate_outcomes (v : bvalue) :
  validate Birthday v = Ok tt \/
  validate Birthday v = Raise (ValueError birthday_msg) \/
  validate Birthday v = Raise OverflowError \/
  validate Birthday v = Raise AttributeError.
Proof.
  destruct v as [s|d]; simpl; [|auto]. unfold Birthday_validate.
  destruct (unpack2 (Text.split_on "." s)) as [[day month]|e] eqn:U; simpl.
  - destruct (Date.new 2000 month day) as [x|e] eqn:N; simpl.
    + assert (B : 1 <= month <= 12 /\ 1 <= day <= Date.days_in_month 2000 month)
        by (apply new_2000_Ok; eauto).
      pose proof (days_in_month_bounds 2000 month).
      destruct (Z.ltb_spec month 1); [lia|]. destruct (Z.gtb_spec month 12); [lia|].
      destruct (Z.ltb_spec day 1); [lia|]. destruct (Z.gtb_spec day 31); [lia|].
      now left.
    + apply new_raises in N as [-> | V]; [simpl; auto | rewrite V; auto].
  - rewrite (unpack2_raises_ValueError _ U). auto.
Qed.


Ltac day_cases d :=
  let H := fresh in
  assert (H : d = 1 \/ d = 2 \/ d = 3 \/ d = 4 \/ d = 5 \/ d = 6 \/ d = 7 \/
              d = 8 \/ d = 9 \/ d = 10 \/ d = 11 \/ d = 12 \/ d = 13 \/ d = 14 \/
              d = 15 \/ d = 16 \/ d = 17 \/ d = 18 \/ d = 19 \/ d = 20 \/ d = 21 \/
              d = 22 \/ d = 23 \/ d = 24 \/ d = 25 \/ d = 26 \/ d = 27 \/ d = 28 \/
              d = 29 \/ d = 30 \/ d = 31) by lia;
  repeat (destruct H as [H|H]); subst d.

(** X23. [Birthday.validate] accepts every day of the calendar of a
    leap year written as day, dot, month in decimal, the 29th of
    February included. *)
Theorem Birthday_validate_accepts_calendar_days (day month : Z) :
  1 <= month <= 12 -> 1 <= day <= Date.days_in_month 2000 month ->
  validate Birthday (BText (Text.str_of_Z day ++ "." ++ Text.str_of_Z month)) = Ok tt.
Proof.
  intros Hm Hd. pose proof (days_in_month_bounds 2000 month) as B.
  month_cases month; day_cases day;
    first [ vm_compute; reflexivity
          | exfalso; clear B; vm_compute in Hd; destruct Hd as [_ Hd]; now apply Hd ].
Qed.

Lemma Birthday_validate_accepts_calendar_days_witness :
  validate Birthday (BText "29.2") = Ok tt.
Proof.
  apply (@Birthday_validate_accepts_calendar_days 29 2); vm_compute; split; discriminate.
Defined.

(** ** Records: a birthday on the 29th of February *)

Lemma leap_next_not_leap (y : Z) :
  Date.is_leap y = true -> Date.is_leap (y + 1) = false.
Proof.
  unfold Date.is_leap. intros H. apply andb_true_iff in H as [H _].
  apply Z.eqb_eq in H.
  destruct (Z.eqb_spec ((y + 1) mod 4) 0) as [E|E]; [|reflexivity].
  exfalso. revert H E. Z.to_euclidean_division_equations. lia.
Qed.

(** X24. A birthday held as the date object of a 29th of February:
    [days_to_birthday] raises ValueError in every year that is not a
    leap year, and in a leap year once February is over (the date is
    then moved to the next year, which has no such day). *)
Theorem days_to_birthday_feb_29_raises (r : Record_) (b : Field Birthday)
    (d today : Date.date) :
  birthday r = Some b -> value b = BDate d ->
  Date.month d = 2 -> Date.day d = 29 ->
  Date.valid today = true ->
  Date.is_leap (Date.year today) = false \/ 2 < Date.month today ->
  days_to_birthday r today = Raise (ValueError "day is out of range for month").
Proof.
  intros Hb Hv Hm Hd Vt Hcase. unfold days_to_birthday. rewrite Hb, Hv. simpl.
  unfold Date.replace_year. rewrite Hm, Hd.
  apply valid_bounds in Vt. destruct today as [y m' d']. simpl in *.
  destruct (Date.is_leap y) eqn:L.
  - destruct Hcase as [?|Hlate]; [discriminate|].
    assert (V : Date.valid (Date.mkdate y 2 29) = true).
    { unfold Date.valid, Date.MINYEAR, Date.MAXYEAR, Date.days_in_month. simpl. rewrite L.
      repeat match goal with
             | |- context [?a <=? ?b] => destruct (Z.leb_spec a b); simpl; try lia
             end; reflexivity. }
    rewrite (new_valid _ _ _ V). simpl.
    assert (Lt : Date.ltb (Date.mkdate y 2 29) (Date.mkdate y m' d') = true).
    { unfold Date.ltb. simpl. rewrite Z.ltb_irrefl, Z.eqb_refl. simpl.
      destruct (Z.ltb_spec 2 m'); [reflexivity | lia]. }
    rewrite Lt. simpl.
    assert (Hy : y <= 9996).
    { unfold Date.is_leap in L. apply andb_true_iff in L as [L _]. apply Z.eqb_eq in L.
      revert L. Z.to_euclidean_division_equations. lia. }
    unfold Date.new, Date.c_int, Date.MINYEAR, Date.MAXYEAR, Date.days_in_month.
    rewrite (leap_next_not_leap y L). simpl.
    repeat match goal with
           | |- context [?a <=? ?b] => destruct (Z.leb_spec a b); simpl; try lia
           end; reflexivity.
  - unfold Date.new, Date.c_int, Date.MINYEAR, Date.MAXYEAR, Date.days_in_month.
    rewrite L. simpl.
    repeat match goal with
           | |- context [?a <=? ?b] => destruct (Z.leb_spec a b); simpl; try lia
           end; reflexivity.
Qed.

Lemma days_to_birthday_feb_29_raises_witness :
  days_to_birthday (Record_init "john" (Some (BDate (Date.mkdate 2000 2 29))))
    (Date.mkdate 2023 1 10) = Raise (ValueError "day is out of range for month") /\
  days_to_birthday (Record_init "john" (Some (BDate (Date.mkdate 2000 2 29))))
    (Date.mkdate 2024 3 1) = Raise (ValueError "day is out of range for month") /\
  days_to_birthday (Record_init "john" (Some (BDate (Date.mkdate 2000 2 29))))
    (Date.mkdate 2024 2 1) = Ok (Some 28).
Proof.
  split; [|split; [|reflexivity]].
  - apply (@days_to_birthday_feb_29_raises _ (Field_init Birthday (BDate (Date.mkdate 2000 2 29)))
             (Date.mkdate 2000 2 29) (Date.mkdate 2023 1 10));
      try reflexivity. now left.
  - apply (@days_to_birthday_feb_29_raises _ (Field_init Birthday (BDate (Date.mkdate 2000 2 29)))
             (Date.mkdate 2000 2 29) (Date.mkdate 2024 3 1));
      try reflexivity. right. reflexivity.
Defined.

(** ** Witnesses of properties stated earlier *)

Lemma value_setter_stores_valid_witness :
  value_setter (Field_init Phone "abc") "777" = (Ok tt, mkField Phone "777") /\
  validate Phone (value (mkField Phone "777")) = Ok tt.
Proof.
  split; [reflexivity|].
  apply (@value_setter_stores_valid Phone (Field_init Phone "abc") (mkField Phone "777") "777").
  reflexivity.
Defined.

Lemma days_to_birthday_date_range_witness :
  days_to_birthday (Record_init "john" (Some (BDate (Date.mkdate 1990 6 14))))
    (Date.mkdate 2024 6 15) = Ok (Some 364) /\
  0 <= 364 <= 365.
Proof.
  split; [reflexivity|].
  apply (@days_to_birthday_date_range
           (Record_init "john" (Some (BDate (Date.mkdate 1990 6 14))))
           (Field_init Birthday (BDate (Date.mkdate 1990 6 14)))
           (Date.mkdate 1990 6 14) (Date.mkdate 2024 6 15) 364); reflexivity.
Defined.

Lemma days_to_birthday_date_returns_witness :
  exists n, days_to_birthday (Record_init "john" (Some (BDate (Date.mkdate 1990 6 14))))
              (Date.mkdate 2024 6 15) = Ok (Some n).
Proof.
  apply (@days_to_birthday_date_returns
           (Record_init "john" (Some (BDate (Date.mkdate 1990 6 14))))
           (Field_init Birthday (BDate (Date.mkdate 1990 6 14)))
           (Date.mkdate 1990 6 14) (Date.mkdate 2024 6 15));
    try reflexivity. simpl. intros [H _]. discriminate.
Defined.


(** ** Pages of [handle_show_all] *)

Lemma firstn_then_firstn (A : Type) (a c : nat) (l : list A) :
  (firstn a l ++ firstn c (skipn a l))%list = firstn (a + c) l.
Proof.
  revert l. induction a as [|a IH]; intros l; simpl; [reflexivity|].
  destruct l as [|x l]; simpl.
  - now rewrite firstn_nil.
  - now rewrite IH.
Qed.

Lemma chunks_concat (A : Type) (n k : nat) (l : list A) :
  concat (map (fun i => firstn n (skipn (i * n) l)) (seq 0 k)) = firstn (k * n) l.
Proof.
  induction k as [|k IH]; [reflexivity|].
  rewrite seq_S, map_app, concat_app, IH. simpl.
  rewrite app_nil_r, firstn_then_firstn. f_equal. lia.
Qed.

Lemma total_pages_enough (b : AddressBook) (page_size : Z) :
  0 < page_size ->
  0 <= total_pages b page_size /\
  Z.of_nat (List.length (data b)) <= total_pages b page_size * page_size /\
  (total_pages b page_size - 1) * page_size < Z.of_nat (List.length (data b))
  \/ data b = [].
Proof.
  intros H. destruct (data b) as [|x l] eqn:E; [now right|]. left.
  unfold total_pages. rewrite E. 
  remember (Z.of_nat (List.length (x :: l))) as len.
  assert (0 < len) by (subst len; simpl; lia).
  Z.to_euclidean_division_equations. nia.
Qed.

(** The three answers of [handle_show_all]: an empty book gives
    "No contacts found." whatever the page; otherwise a page below 1 or
    above [total_pages] gives "Invalid page number."; otherwise the
    answer is the lines of the records of the page followed by the page
    count, with the white space at both ends removed. *)
Lemma handle_show_all_answers (b : AddressBook) (page page_size : Z) :
  (data b = [] -> handle_show_all b page page_size = "No contacts found.") /\
  (data b <> [] -> page < 1 \/ total_pages b page_size < page ->
   handle_show_all b page page_size = "Invalid page number.") /\
  (data b <> [] -> 1 <= page <= total_pages b page_size ->
   handle_show_all b page page_size =
   Text.strip
     (fold_left (fun out r => out ++ show_line r) (page_contacts b page page_size) ""
      ++ "Page " ++ Text.str_of_Z page ++ "/" ++ Text.str_of_Z (total_pages b page_size))).
Proof.
  unfold handle_show_all, total_pages, page_contacts.
  destruct (data b) as [|x l] eqn:E; (split; [|split]); try congruence; intros _ H.
  - destruct (Z.ltb_spec page 1); [reflexivity|].
    destruct (Z.gtb_spec page ((Z.of_nat (List.length (x :: l)) + page_size - 1) / page_size));
      [reflexivity | lia].
  - destruct (Z.ltb_spec page 1); [lia|].
    destruct (Z.gtb_spec page ((Z.of_nat (List.length (x :: l)) + page_size - 1) / page_size));
      [lia | reflexivity].
Qed.

(** X25. The pages of [handle_show_all] cover the book: for a page size
    above 0, the records of the pages 1 to [total_pages], one page
    after the other, are the records of the book in its order; each of
    these pages has at least one record and at most [page_size]; and
    for such a page the answer is the lines of its records followed by
    the page count. *)
Theorem pages_cover_the_book (b : AddressBook) (page_size : Z) :
  0 < page_size ->
  concat (map (fun i => page_contacts b (Z.of_nat (S i)) page_size)
              (seq 0 (Z.to_nat (total_pages b page_size)))) = iter b /\
  (forall page, 1 <= page <= total_pages b page_size ->
     (1 <= List.length (page_contacts b page page_size) <= Z.to_nat page_size)%nat) /\
  (forall page, data b <> [] -> 1 <= page <= total_pages b page_size ->
     handle_show_all b page page_size =
     Text.strip
       (fold_left (fun out r => out ++ show_line r) (page_contacts b page page_size) ""
        ++ "Page " ++ Text.str_of_Z page ++ "/" ++
        Text.str_of_Z (total_pages b page_size))).
Proof.
  intros Hps. split; [|split; [|intros page; apply handle_show_all_answers]].
  - assert (E : forall i, page_contacts b (Z.of_nat (S i)) page_size =
                          firstn (Z.to_nat page_size)
                                 (skipn (i * Z.to_nat page_size) (Dict.values (data b)))).
    { intros i. unfold page_contacts. do 2 f_equal.
      replace (Z.of_nat (S i) - 1) with (Z.of_nat i) by lia.
      rewrite Z2Nat.inj_mul by lia. now rewrite Nat2Z.id. }
    rewrite (map_ext _ _ E), chunks_concat. unfold iter.
    apply firstn_all2. unfold Dict.values. rewrite length_map.
    destruct (total_pages_enough b Hps) as [(H0 & H1 & _)|H].
    + apply Nat2Z.inj_le. rewrite Nat2Z.inj_mul, !Z2Nat.id by lia. exact H1.
    + rewrite H. simpl. lia.
  - intros page Hp. unfold page_contacts.
    rewrite length_firstn, length_skipn. unfold Dict.values. rewrite length_map.
    destruct (total_pages_enough b Hps) as [(H0 & H1 & H2)|H].
    + assert (Z.of_nat (Z.to_nat ((page - 1) * page_size)) = (page - 1) * page_size)
        by (apply Z2Nat.id; nia).
      assert ((page - 1) * page_size < Z.of_nat (List.length (data b))) by nia.
      lia.
    + unfold total_pages in Hp. rewrite H in Hp. simpl in Hp.
      replace (0 + page_size - 1) with (page_size - 1) in Hp by lia.
      rewrite Z.div_small in Hp by lia. lia.
Qed.

Lemma pages_cover_the_book_witness :
  let b := snd (handle_add "ann" "2" john_book None) in
  (page_contacts b 1 1 ++ page_contacts b 2 1)%list = iter b /\ total_pages b 1 = 2.
Proof.
  intros b. destruct (@pages_cover_the_book b 1 ltac:(lia)) as (H & _ & _).
  split; [|reflexivity]. rewrite <- H. reflexivity.
Defined.

(** ** Letter case of commands, validity of phones *)

Lemma dispatch_lower (today : Date.date) (line : string) (w : world) :
  dispatch today (Text.lower line) w = dispatch today line w.
Proof. unfold dispatch. now rewrite lower_idempotent. Qed.

(** X26. The loop lower-cases each line before it looks at it: a run on
    the lines as typed is the run on the lines in lower case, so the
    command words, but also the names, phones and file names given,
    are taken without their letter case. *)
Theorem main_ignores_letter_case (today : Date.date) (lines : list string)
    (fs : filesystem) :
  main today lines fs = main today (map Text.lower lines) fs.
Proof.
  unfold main. generalize (mkWorld AddressBook_init fs) as w.
  generalize (@nil string) as out.
  induction lines as [|line rest IH]; intros out w; simpl; [reflexivity|].
  rewrite dispatch_lower.
  destruct (dispatch today line w) as [[[response|]|e] w']; auto.
Qed.

Lemma edit_loop_keeps_valid (ps : list (Field Phone)) (o n : string) :
  Forall (fun p : Field Phone => validate Phone (value p) = Ok tt) ps ->
  Forall (fun p : Field Phone => validate Phone (value p) = Ok tt)
         (snd (edit_loop ps o n)).
Proof.
  induction ps as [|p ps IH]; intros H; simpl; [constructor|].
  inversion H as [|? ? Hp Hps]; subst.
  destruct (String.eqb (value p) o).
  - unfold value_setter. destruct (validate Phone n) as [[]|e] eqn:E; simpl.
    + constructor; [exact E | exact Hps].
    + exact H.
  - specialize (IH Hps). destruct (edit_loop ps o n). simpl in *.
    now constructor.
Qed.

(** X27. [edit_phone] keeps the phones valid: when every phone of the
    record holds a value [Phone.validate] accepts, so does every phone
    after the call, whatever the call was given and however it ended. *)
Theorem edit_phone_keeps_phones_valid (r : Record_) (old_phone new_phone : string) :
  Forall (fun p : Field Phone => validate Phone (value p) = Ok tt) (phone r) ->
  Forall (fun p : Field Phone => validate Phone (value p) = Ok tt)
         (phone (snd (edit_phone r old_phone new_phone))).
Proof.
  intros H. unfold edit_phone.
  pose proof (edit_loop_keeps_valid old_phone new_phone H) as K.
  destruct (edit_loop (phone r) old_phone new_phone). exact K.
Qed.

Lemma edit_phone_keeps_phones_valid_witness :
  let r := add_phone (add_phone (Record_init "john" None) "111") "222" in
  Forall (fun p : Field Phone => validate Phone (value p) = Ok tt)
         (phone (snd (edit_phone r "222" "9x9"))) /\
  Forall (fun p : Field Phone => validate Phone (value p) = Ok tt)
         (phone (snd (edit_phone r "222" "999"))).
Proof.
  intros r.
  assert (H : Forall (fun p : Field Phone => validate Phone (value p) = Ok tt) (phone r))
    by (repeat constructor).
  split; apply (@edit_phone_keeps_phones_valid r _ _ H).
Defined.

Lemma input_error_catches_exactly_witness :
  caught TypeError = false /\ input_error (Raise TypeError) = Raise TypeError /\
  caught (ValueError phone_msg) = true /\
  input_error (Raise (ValueError phone_msg)) = Ok phone_msg.
Proof.
  destruct (input_error_catches_exactly TypeError) as (_ & H & _).
  split; [reflexivity|]. split; [apply H; reflexivity|]. split; reflexivity.
Defined.

Lemma add_record_lookup_witness :
  Dict.get "john" (data (add_record john_book (add_phone (Record_init "john" None) "999")))
    = Some (add_phone (Record_init "john" None) "999") /\
  Dict.get "ann" (data (add_record john_book (add_phone (Record_init "john" None) "999")))
    = Dict.get "ann" (data john_book).
Proof.
  destruct (add_record_lookup john_book (add_phone (Record_init "john" None) "999"))
    as [H1 H2].
  split; [exact H1|]. apply H2. discriminate.
Defined.


Lemma Birthday_validate_accepts_iff_witness :
  validate Birthday (BText " 7 .0_2") = Ok tt /\
  validate Birthday (BText "30.02") <> Ok tt.
Proof.
  destruct (Birthday_validate_accepts_iff " 7 .0_2") as [_ H1].
  split.
  - apply H1. exists " 7 ", "0_2", 7, 2. vm_compute. intuition discriminate.
  - vm_compute. discriminate.
Defined.
